(** * Chat_bot: the message exchange of the chat widget

    A shallow embedding of the conversation state and of the single
    request/response exchange of the repository's three React components:

    - [AdvancedChatbot] in its current revision (model selector with
      Gemini and DeepSeek);
    - [AdvancedChatbot] in its earlier revision (OpenAI and Anthropic),
      with its own initial state, credentials and page, whose input
      element carries one more attribute, [disabled={isLoading}];
    - the plain [Chatbot] of [src/components/Chatbot.tsx].

    JavaScript strings are sequences of UTF-16 code units, values received
    from the network are untyped JavaScript values, an [async] function is
    cut at its one [await], and the ambient clock and random source are
    inputs of the handlers that read them. *)

From Stdlib Require Import ZArith NArith List Bool Lia String Ascii.
From Stdlib Require Import Floats.SpecFloat.
From Stdlib Require DecimalString DecimalPos DecimalZ.
Import ListNotations.

Local Open Scope N_scope.
Set Warnings "-register-all".

(* ================================================================== *)
(** ** JavaScript strings *)

Module JsString.

(** A string is its sequence of UTF-16 code units. *)
Definition jsstring : Type := list N.

(** Source literals are written in this file as UTF-8 text and decoded to
    code units; a code point above U+FFFF becomes a surrogate pair. *)
Definition cont (b : N) : N := b mod 64.

Definition of_code_point (cp : N) : jsstring :=
  if cp <? 0x10000 then [cp]
  else let v := cp - 0x10000 in [0xD800 + v / 1024; 0xDC00 + v mod 1024].

Fixpoint decode_utf8 (bs : list N) : jsstring :=
  match bs with
  | [] => []
  | b :: r1 =>
    if b <? 0x80 then b :: decode_utf8 r1
    else if b <? 0xE0 then
      match r1 with
      | c1 :: r2 => ((b mod 32) * 64 + cont c1) :: decode_utf8 r2
      | _ => []
      end
    else if b <? 0xF0 then
      match r1 with
      | c1 :: c2 :: r3 =>
        ((b mod 16) * 4096 + cont c1 * 64 + cont c2) :: decode_utf8 r3
      | _ => []
      end
    else
      match r1 with
      | c1 :: c2 :: c3 :: r4 =>
        of_code_point ((b mod 8) * 262144 + cont c1 * 4096 + cont c2 * 64 + cont c3)
          ++ decode_utf8 r4
      | _ => []
      end
  end.

Definition js (s : string) : jsstring :=
  decode_utf8 (map N_of_ascii (list_ascii_of_string s)).

(** [Number.prototype.toString] of an integer, as template literals
    render [Date.now()]. *)
Definition of_Z (z : Z) : jsstring :=
  js (DecimalString.NilZero.string_of_int (Z.to_int z)).

(** ECMAScript [WhiteSpace] and [LineTerminator] code points, the set
    [String.prototype.trim] strips. *)
Definition isWhiteSpace (c : N) : bool :=
  (c =? 0x0009) || (c =? 0x000A) || (c =? 0x000B) || (c =? 0x000C)
  || (c =? 0x000D) || (c =? 0x0020) || (c =? 0x00A0) || (c =? 0x1680)
  || ((0x2000 <=? c) && (c <=? 0x200A))
  || (c =? 0x2028) || (c =? 0x2029) || (c =? 0x202F) || (c =? 0x205F)
  || (c =? 0x3000) || (c =? 0xFEFF).

Fixpoint trimStart (s : jsstring) : jsstring :=
  match s with
  | [] => []
  | c :: r => if isWhiteSpace c then trimStart r else s
  end.

Definition trimEnd (s : jsstring) : jsstring := rev (trimStart (rev s)).

(** [String.prototype.trim]. *)
Definition trim (s : jsstring) : jsstring := trimEnd (trimStart s).

(** A string is falsy exactly when it is empty. *)
Definition nonEmpty (s : jsstring) : bool :=
  match s with [] => false | _ :: _ => true end.

Fixpoint eqb (a b : jsstring) : bool :=
  match a, b with
  | [], [] => true
  | x :: a', y :: b' => (x =? y) && eqb a' b'
  | _, _ => false
  end.

Fixpoint startsWith (s p : jsstring) : bool :=
  match p, s with
  | [], _ => true
  | x :: p', y :: s' => (x =? y) && startsWith s' p'
  | _ :: _, [] => false
  end.

(** [String.prototype.includes]: does [p] occur in [s]? *)
Fixpoint includes (s p : jsstring) : bool :=
  startsWith s p
  || match s with
     | [] => false
     | _ :: r => includes r p
     end.

(** What [includes] decides. *)
Definition occurs_in (p s : jsstring) : Prop :=
  exists before after, s = before ++ p ++ after.

Definition blank (s : jsstring) : Prop := Forall (fun c => isWhiteSpace c = true) s.

End JsString.
Export JsString.

(* ================================================================== *)
(** ** JavaScript values and completions *)

Module Js.

(** A value as [JSON.parse] produces it (plus [undefined]); a number is
    an IEEE double.  An object is its list of own properties, looked up
    by the first entry with the name. *)
Inductive JSValue : Type :=
| JSUndefined
| JSNull
| JSBool (b : bool)
| JSNumber (f : spec_float)
| JSString (s : jsstring)
| JSArray (elems : list JSValue)
| JSObject (props : list (jsstring * JSValue)).

(** What the transport rejects a request with; the three are one to the
    components, which never inspect the error. *)
Inductive AxiosError : Type :=
| ERR_NETWORK
| ECONNABORTED                    (* the 15000 ms timeout elapsed *)
| ERR_BAD_RESPONSE (status : Z).  (* a status outside 2xx *)

Inductive Thrown : Type :=
| ThrownAxios (e : AxiosError)
| TypeError.

(** How a piece of code completes: normally with a value, or abruptly. *)
Inductive Completion (A : Type) : Type :=
| Normal (a : A)
| Throw (e : Thrown).
Arguments Normal {A} a.
Arguments Throw {A} e.

Definition bind {A B} (c : Completion A) (k : A -> Completion B) : Completion B :=
  match c with
  | Normal a => k a
  | Throw e => Throw e
  end.

(** A block of a handler over a component state [S]: it may change the
    state and may throw. *)
Definition Block (S : Type) : Type := S -> Completion unit * S.

(** [try { ... } catch (error) { ... } finally { ... }]: the [catch]
    clause runs when the [try] block throws, the [finally] clause runs
    in every case, and what it throws replaces the completion so far. *)
Definition try_catch_finally {S : Type}
  (try_ : Block S) (catch : Thrown -> Block S) (finally : Block S) : Block S :=
  fun s =>
    let (c1, s1) := try_ s in
    let (c2, s2) := match c1 with
                    | Normal _ => (Normal tt, s1)
                    | Throw e => catch e s1
                    end in
    let (c3, s3) := finally s2 in
    match c3 with
    | Normal _ => (c2, s3)
    | Throw e => (Throw e, s3)
    end.

(** [ToBoolean]. *)
Definition truthy (v : JSValue) : bool :=
  match v with
  | JSUndefined | JSNull => false
  | JSBool b => b
  | JSNumber (S754_zero _) | JSNumber S754_nan => false
  | JSNumber _ => true
  | JSString s => nonEmpty s
  | JSArray _ | JSObject _ => true
  end.

Definition nullish (v : JSValue) : bool :=
  match v with
  | JSUndefined | JSNull => true
  | _ => false
  end.

(** [a || b] with [b] a value. *)
Definition or_else (a b : JSValue) : JSValue := if truthy a then a else b.

Inductive Key : Type :=
| Name (k : jsstring)
| Index (i : nat).

Definition key_string (k : Key) : jsstring :=
  match k with
  | Name s => s
  | Index i => of_Z (Z.of_nat i)
  end.

Fixpoint own_property (props : list (jsstring * JSValue)) (k : jsstring) : JSValue :=
  match props with
  | [] => JSUndefined
  | (k', v) :: rest => if JsString.eqb k' k then v else own_property rest k
  end.

(** [v.k] and [v[i]].  Reading a property of [undefined] or [null] throws;
    a primitive or an array has no property under the names the
    components read ([choices], [message], [content]); built-in
    properties such as [length] are never read and are not modelled. *)
Definition get (v : JSValue) (k : Key) : Completion JSValue :=
  match v with
  | JSUndefined | JSNull => Throw TypeError
  | JSBool _ | JSNumber _ => Normal JSUndefined
  | JSString s =>
    match k with
    | Index i => Normal (match nth_error s i with
                         | Some c => JSString [c]
                         | None => JSUndefined
                         end)
    | Name _ => Normal JSUndefined
    end
  | JSArray elems =>
    match k with
    | Index i => Normal (nth i elems JSUndefined)
    | Name _ => Normal JSUndefined
    end
  | JSObject props => Normal (own_property props (key_string k))
  end.

(** One link [v?.k] of an optional chain all of whose links are
    optional: a nullish [v] gives [undefined]. *)
Definition opt_get (v : JSValue) (k : Key) : JSValue :=
  match v with
  | JSUndefined | JSNull => JSUndefined
  | _ => match get v k with
         | Normal x => x
         | Throw _ => JSUndefined
         end
  end.

(** [v.includes(p)] for a string [p]: the string method on a string, the
    array method (strict equality with an element) on an array, and a
    [TypeError] (not a function) on anything else. *)
Definition is_string (p : jsstring) (v : JSValue) : bool :=
  match v with
  | JSString s => JsString.eqb s p
  | _ => false
  end.

Definition call_includes (v : JSValue) (p : jsstring) : Completion bool :=
  match v with
  | JSString s => Normal (includes s p)
  | JSArray elems => Normal (existsb (is_string p) elems)
  | _ => Throw TypeError
  end.

End Js.
Export Js.

Notation "x <- c ;; k" := (bind c (fun x => k))
  (at level 61, c at next level, right associativity).

(* ================================================================== *)
(** ** What the environment supplies *)

Module Ambient.

(** [import.meta.env]: the value under a name, if any. *)
Definition ImportMetaEnv : Type := jsstring -> option jsstring.

(** The readings one message takes from the clock and the random
    source: [Date.now()] inside [generateId], the nine characters
    [Math.random().toString(36).substr(2, 9)], and [Date.now()] for the
    [timestamp] field. *)
Record Readings : Type := {
  id_now : Z;
  id_random : jsstring;
  date_now : Z
}.

Record AxiosResponse : Type := {
  status : Z;
  data : JSValue
}.

(** How the promise of [api.post] settles. *)
Inductive Outcome : Type :=
| Fulfilled (response : AxiosResponse)
| Rejected (e : AxiosError).

(** What happened on the wire. *)
Inductive Wire : Type :=
| NoResponse
| TimedOut
| Responded (response : AxiosResponse).

(** The transport's default [validateStatus]: only a 2xx response
    fulfils the promise. *)
Definition settle (wire : Wire) : Outcome :=
  match wire with
  | NoResponse => Rejected ERR_NETWORK
  | TimedOut => Rejected ECONNABORTED
  | Responded r =>
    if ((200 <=? status r) && (status r <? 300))%Z then Fulfilled r
    else Rejected (ERR_BAD_RESPONSE (status r))
  end.

(** The requests still waiting, less the one that settled. *)
Fixpoint remove_nth {A} (i : nat) (l : list A) : list A :=
  match i, l with
  | _, [] => []
  | O, _ :: t => t
  | S j, x :: t => x :: remove_nth j t
  end.

(** The body the completion endpoint is expected to answer with:
    [{choices: [{message: {content}}]}]. *)
Definition completion_body (content : JSValue) : JSValue :=
  JSObject [(js "choices",
    JSArray [JSObject [(js "message", JSObject [(js "content", content)])]])].

(** A template literal renders [undefined] by its name. *)
Definition interpolate (v : option jsstring) : jsstring :=
  match v with
  | Some s => s
  | None => js "undefined"
  end.

End Ambient.
Export Ambient.

(* ================================================================== *)
(** ** AdvancedChatbot *)

Module AdvancedChatbot.

Inductive User : Type :=
| You    (* 'Вы' *)
| Bot.   (* 'Бот' *)

Inductive MessageType : Type :=
| type_default
| type_code
| type_error.

(** [text] is declared a string; it holds the value the reply expression
    produced, which the code does not check to be one. *)
Record Message : Type := {
  id : jsstring;
  user : User;
  text : JSValue;
  timestamp : Z;
  type : option MessageType;
  reactions : option (list jsstring)
}.

Record ChatConfig : Type := {
  model : jsstring;
  temperature : spec_float;
  maxTokens : Z
}.

Inductive ModelProvider : Type :=
| Gemini
| DeepSeek.

Definition value (m : ModelProvider) : jsstring :=
  match m with
  | Gemini => js "google/gemini-pro"
  | DeepSeek => js "deepseek/deepseek-chat"
  end.

(** The component's state hooks. *)
Record State : Type := {
  messages : list Message;
  input : jsstring;
  isLoading : bool;
  config : ChatConfig;
  darkMode : bool;
  isTyping : bool;
  showEmojiPicker : bool
}.

(** The double nearest to 0.7. *)
Definition temperature_default : spec_float :=
  S754_finite false 0x16666666666666 (-53).

Definition initial : State := {|
  messages := [];
  input := [];
  isLoading := false;
  config := {| model := value Gemini;
               temperature := temperature_default;
               maxTokens := 300 |};
  darkMode := false;
  isTyping := false;
  showEmojiPicker := false
|}.

Definition setMessages (f : list Message -> list Message) (s : State) : State :=
  {| messages := f (messages s); input := input s; isLoading := isLoading s;
     config := config s; darkMode := darkMode s; isTyping := isTyping s;
     showEmojiPicker := showEmojiPicker s |}.

Definition setInput (f : jsstring -> jsstring) (s : State) : State :=
  {| messages := messages s; input := f (input s); isLoading := isLoading s;
     config := config s; darkMode := darkMode s; isTyping := isTyping s;
     showEmojiPicker := showEmojiPicker s |}.

Definition setIsLoading (b : bool) (s : State) : State :=
  {| messages := messages s; input := input s; isLoading := b;
     config := config s; darkMode := darkMode s; isTyping := isTyping s;
     showEmojiPicker := showEmojiPicker s |}.

Definition setConfig (f : ChatConfig -> ChatConfig) (s : State) : State :=
  {| messages := messages s; input := input s; isLoading := isLoading s;
     config := f (config s); darkMode := darkMode s; isTyping := isTyping s;
     showEmojiPicker := showEmojiPicker s |}.

Definition setDarkMode (b : bool) (s : State) : State :=
  {| messages := messages s; input := input s; isLoading := isLoading s;
     config := config s; darkMode := b; isTyping := isTyping s;
     showEmojiPicker := showEmojiPicker s |}.

Definition setIsTyping (b : bool) (s : State) : State :=
  {| messages := messages s; input := input s; isLoading := isLoading s;
     config := config s; darkMode := darkMode s; isTyping := b;
     showEmojiPicker := showEmojiPicker s |}.

Definition setShowEmojiPicker (b : bool) (s : State) : State :=
  {| messages := messages s; input := input s; isLoading := isLoading s;
     config := config s; darkMode := darkMode s; isTyping := isTyping s;
     showEmojiPicker := b |}.

Definition getApiKey (env : ImportMetaEnv) (model : jsstring) : option jsstring :=
  if JsString.eqb model (value Gemini) then env (js "VITE_GEMINI_API_KEY")
  else if JsString.eqb model (value DeepSeek) then env (js "VITE_DEEPSEEKR1_API_KEY")
  else Some [].

(** The name under which [getApiKey] reads the environment for a model:
    the case of its [switch] that the model selects. *)
Definition credentialKey (model : jsstring) : option jsstring :=
  if JsString.eqb model (value Gemini) then Some (js "VITE_GEMINI_API_KEY")
  else if JsString.eqb model (value DeepSeek) then Some (js "VITE_DEEPSEEKR1_API_KEY")
  else None.

Record AxiosInstance : Type := {
  baseURL : jsstring;
  timeout : Z;
  Authorization : jsstring;
  Content_Type : jsstring
}.

Definition createApiClient (env : ImportMetaEnv) (config : ChatConfig) : AxiosInstance :=
  let apiKey := getApiKey env (model config) in
  {| baseURL := js "https://openrouter.ai/api/v1/";
     timeout := 15000;
     Authorization := js "Bearer " ++ interpolate apiKey;
     Content_Type := js "application/json" |}.

Record ChatMessage : Type := {
  role : jsstring;
  content : jsstring
}.

Record Body : Type := {
  body_model : jsstring;
  body_messages : list ChatMessage;
  max_tokens : Z;
  body_temperature : spec_float
}.

(** One call [api.post(url, body)]. *)
Record Request : Type := {
  api : AxiosInstance;
  url : jsstring;
  body : Body
}.

Definition generateId (r : Readings) : jsstring :=
  js "msg_" ++ of_Z (id_now r) ++ js "_" ++ id_random r.

Definition NO_REPLY : jsstring := js "Ответ не получен.".
Definition ERROR_REPLY : jsstring := js "Ошибка при получении ответа.".
Definition FENCE : jsstring := js "```".

(** The three object literals of [sendMessage]. *)
Definition userMessage (r : Readings) (trimmedInput : jsstring) : Message :=
  {| id := generateId r; user := You; text := JSString trimmedInput;
     timestamp := date_now r; type := None; reactions := None |}.

Definition botMessage (r : Readings) (botReply : JSValue) (fenced : bool) : Message :=
  {| id := generateId r; user := Bot; text := botReply;
     timestamp := date_now r;
     type := Some (if fenced then type_code else type_default);
     reactions := None |}.

Definition errorMessage (r : Readings) : Message :=
  {| id := generateId r; user := Bot; text := JSString ERROR_REPLY;
     timestamp := date_now r; type := Some type_error; reactions := None |}.

(** An [async] function up to its [await]: it has returned, or it waits
    for a request to settle. *)
Inductive Suspended : Type :=
| Returned
| Awaiting (request : Request).

(** [sendMessage] up to the [await] of [api.post]. *)
Definition sendMessage (env : ImportMetaEnv) (r : Readings) (s : State)
  : State * Suspended :=
  let trimmedInput := trim (input s) in
  if negb (nonEmpty trimmedInput) then (s, Returned)
  else
    let userMessage := userMessage r trimmedInput in
    let s1 := setMessages (fun prev => prev ++ [userMessage]) s in
    let s2 := setInput (fun _ => []) s1 in
    let s3 := setIsLoading true s2 in
    let s4 := setIsTyping true s3 in
    let api := createApiClient env (config s) in
    (s4, Awaiting
           {| api := api;
              url := js "chat/completions";
              body := {| body_model := model (config s);
                         body_messages := [{| role := js "user"; content := trimmedInput |}];
                         max_tokens := maxTokens (config s);
                         body_temperature := temperature (config s) |} |}).

(** [response.data?.choices?.[0]?.message?.content] *)
Definition reply_content (response : AxiosResponse) : JSValue :=
  opt_get (opt_get (opt_get (opt_get (data response)
    (Name (js "choices"))) (Index 0)) (Name (js "message"))) (Name (js "content")).

(** [... || 'Ответ не получен.'] *)
Definition botReply (response : AxiosResponse) : JSValue :=
  or_else (reply_content response) (JSString NO_REPLY).

(** The [try] block from the point where the awaited promise settles. *)
Definition try_block (r : Readings) (o : Outcome) : Block State :=
  fun s =>
    match o with
    | Rejected e => (Throw (ThrownAxios e), s)
    | Fulfilled response =>
      let botReply := botReply response in
      match call_includes botReply FENCE with
      | Throw e => (Throw e, s)
      | Normal fenced =>
        let botMessage := botMessage r botReply fenced in
        (Normal tt, setMessages (fun prev => prev ++ [botMessage]) s)
      end
    end.

Definition catch_block (r : Readings) (error : Thrown) : Block State :=
  fun s =>
    (Normal tt,
     setMessages (fun prev => prev ++ [errorMessage r]) s).

(** [scrollToBottom()] and [inputRef.current?.focus()] act on the page
    only and leave the state as it is. *)
Definition finally_block : Block State :=
  fun s => (Normal tt, setIsTyping false (setIsLoading false s)).

(** [sendMessage] from its [await] on: [r] is read by the reply message,
    [r'] by the error message if the [catch] clause runs. *)
Definition sendMessage_resume (r r' : Readings) (o : Outcome) : Block State :=
  try_catch_finally (try_block r o) (catch_block r') finally_block.

Definition handleKeyPress (env : ImportMetaEnv) (key : jsstring) (shiftKey : bool)
  (r : Readings) (s : State) : State * Suspended :=
  if JsString.eqb key (js "Enter") && negb shiftKey
  then sendMessage env r s      (* after e.preventDefault() *)
  else (s, Returned).

Definition handleEmojiSelect (native : jsstring) (s : State) : State :=
  setShowEmojiPicker false (setInput (fun prev => prev ++ native) s).

Definition handleReaction (messageId emoji : jsstring) (s : State) : State :=
  setMessages (fun _ =>
    map (fun msg =>
           if JsString.eqb (id msg) messageId
           then {| id := id msg; user := user msg; text := text msg;
                   timestamp := timestamp msg; type := type msg;
                   reactions := Some (match reactions msg with
                                      | Some l => l
                                      | None => []
                                      end ++ [emoji]) |}
           else msg)
        (messages s)) s.

(** The clear button, [onClick={() => setMessages([])}]. *)
Definition clearChat (s : State) : State := setMessages (fun _ => []) s.

(** The model selector,
    [onChange={(e) => setConfig(prev => ({ ...prev, model: e.target.value }))}]. *)
Definition selectModel (v : jsstring) (s : State) : State :=
  setConfig (fun prev => {| model := v; temperature := temperature prev;
                            maxTokens := maxTokens prev |}) s.

(** *** The page: which controls take events *)

Record View : Type := {
  input_disabled : bool;
  send_disabled : bool;
  picker_shown : bool
}.

(** The current revision: the send button has
    [disabled={isLoading || !input.trim()}], the input has no [disabled]. *)
Definition render (s : State) : View :=
  {| input_disabled := false;
     send_disabled := isLoading s || negb (nonEmpty (trim (input s)));
     picker_shown := showEmojiPicker s |}.

(** The component together with the requests it has issued that have not
    settled yet. *)
Record World : Type := {
  ui : State;
  pending : list Request
}.

Definition start : World := {| ui := initial; pending := [] |}.

Inductive Event : Type :=
| Change (v : jsstring)                                 (* typing in the input *)
| KeyPress (key : jsstring) (shiftKey : bool) (r : Readings)
| ClickSend (r : Readings)
| ClickClear
| SelectModel (m : ModelProvider)
| ClickDarkMode
| ClickEmojiButton
| EmojiSelect (native : jsstring)
| Settles (i : nat) (wire : Wire) (r r' : Readings).    (* the i-th pending request *)

Definition with_ui (w : World) (s : State) : World :=
  {| ui := s; pending := pending w |}.

Definition launch (w : World) (res : State * Suspended) : World :=
  match res with
  | (s, Returned) => {| ui := s; pending := pending w |}
  | (s, Awaiting request) => {| ui := s; pending := pending w ++ [request] |}
  end.

Section Step.

Variable view : State -> View.
Variable env : ImportMetaEnv.

(** One event of the page; an event on a disabled control is not
    delivered. *)
Definition step (w : World) (e : Event) : World :=
  let s := ui w in
  match e with
  | Change v =>
    if input_disabled (view s) then w else with_ui w (setInput (fun _ => v) s)
  | KeyPress key shiftKey r =>
    if input_disabled (view s) then w
    else launch w (handleKeyPress env key shiftKey r s)
  | ClickSend r =>
    if send_disabled (view s) then w else launch w (sendMessage env r s)
  | ClickClear => with_ui w (clearChat s)
  | SelectModel m => with_ui w (selectModel (value m) s)
  | ClickDarkMode => with_ui w (setDarkMode (negb (darkMode s)) s)
  | ClickEmojiButton => with_ui w (setShowEmojiPicker (negb (showEmojiPicker s)) s)
  | EmojiSelect native =>
    if picker_shown (view s) then with_ui w (handleEmojiSelect native s) else w
  | Settles i wire r r' =>
    match nth_error (pending w) i with
    | None => w
    | Some _ =>
      {| ui := snd (sendMessage_resume r r' (settle wire) s);
         pending := remove_nth i (pending w) |}
    end
  end.

Definition run (w : World) (es : list Event) : World := fold_left step es w.

Definition reachable (w : World) : Prop := exists es, run start es = w.

End Step.

End AdvancedChatbot.

(* ================================================================== *)
(** ** Chatbot ([src/components/Chatbot.tsx]) *)

Module Chatbot.

Record Message : Type := {
  user : jsstring;
  text : JSValue
}.

Record State : Type := {
  messages : list Message;
  input : jsstring;
  isLoading : bool
}.

Definition initial : State := {| messages := []; input := []; isLoading := false |}.

Definition setMessages (f : list Message -> list Message) (s : State) : State :=
  {| messages := f (messages s); input := input s; isLoading := isLoading s |}.

Definition setInput (v : jsstring) (s : State) : State :=
  {| messages := messages s; input := v; isLoading := isLoading s |}.

Definition setIsLoading (b : bool) (s : State) : State :=
  {| messages := messages s; input := input s; isLoading := b |}.

Record Request : Type := {
  base : jsstring;
  Authorization : jsstring;
  url : jsstring;
  body_model : jsstring;
  body_content : jsstring
}.

Definition YOU : jsstring := js "Вы".
Definition BOT : jsstring := js "Бот".
Definition NO_REPLY : jsstring := js "Ответ не получен.".
Definition ERROR_REPLY : jsstring := js "Ошибка: не удалось получить ответ.".

Inductive Suspended : Type :=
| Returned
| Awaiting (request : Request).

(** [sendMessage] up to the [await]. *)
Definition sendMessage (env : ImportMetaEnv) (s : State) : State * Suspended :=
  if negb (nonEmpty (trim (input s))) then (s, Returned)
  else
    let newMessage := {| user := YOU; text := JSString (input s) |} in
    let s1 := setMessages (fun prev => prev ++ [newMessage]) s in
    let s2 := setInput [] s1 in
    let s3 := setIsLoading true s2 in
    (s3, Awaiting
           {| base := js "https://openrouter.ai/api/v1/";
              Authorization := js "Bearer " ++ interpolate (env (js "VITE_API_KEY"));
              url := js "chat/completions";
              body_model := js "openai/gpt-3.5-turbo";
              body_content := input s |}).

(** [response.data?.choices[0].message.content]: only the first link is
    optional; a nullish [data] ends the whole chain with [undefined]. *)
Definition reply_content (response : AxiosResponse) : Completion JSValue :=
  if nullish (data response) then Normal JSUndefined
  else
    choices <- get (data response) (Name (js "choices")) ;;
    first <- get choices (Index 0) ;;
    message <- get first (Name (js "message")) ;;
    get message (Name (js "content")).

Definition botReply (response : AxiosResponse) : Completion JSValue :=
  c <- reply_content response ;;
  Normal (or_else c (JSString NO_REPLY)).

Definition try_block (o : Outcome) : Block State :=
  fun s =>
    match o with
    | Rejected e => (Throw (ThrownAxios e), s)
    | Fulfilled response =>
      match botReply response with
      | Throw e => (Throw e, s)
      | Normal botReply =>
        let botMessage := {| user := BOT; text := botReply |} in
        (Normal tt, setMessages (fun prev => prev ++ [botMessage]) s)
      end
    end.

(** [console.error] writes to the console only. *)
Definition catch_block (error : Thrown) : Block State :=
  fun s =>
    (Normal tt,
     setMessages (fun prev => prev ++
       [{| user := BOT; text := JSString ERROR_REPLY |}]) s).

Definition finally_block : Block State :=
  fun s => (Normal tt, setIsLoading false s).

Definition sendMessage_resume (o : Outcome) : Block State :=
  try_catch_finally (try_block o) catch_block finally_block.

Definition handleKeyPress (env : ImportMetaEnv) (key : jsstring) (shiftKey : bool)
  (s : State) : State * Suspended :=
  if JsString.eqb key (js "Enter") && negb shiftKey
  then sendMessage env s
  else (s, Returned).

Record World : Type := {
  ui : State;
  pending : list Request
}.

Definition start : World := {| ui := initial; pending := [] |}.

Inductive Event : Type :=
| Change (v : jsstring)
| KeyDown (key : jsstring) (shiftKey : bool)
| ClickSend
| Settles (i : nat) (wire : Wire).

Definition launch (w : World) (res : State * Suspended) : World :=
  match res with
  | (s, Returned) => {| ui := s; pending := pending w |}
  | (s, Awaiting request) => {| ui := s; pending := pending w ++ [request] |}
  end.

(** Both the input and the button carry [disabled={isLoading}]. *)
Definition step (env : ImportMetaEnv) (w : World) (e : Event) : World :=
  let s := ui w in
  match e with
  | Change v =>
    if isLoading s then w else {| ui := setInput v s; pending := pending w |}
  | KeyDown key shiftKey =>
    if isLoading s then w else launch w (handleKeyPress env key shiftKey s)
  | ClickSend =>
    if isLoading s then w else launch w (sendMessage env s)
  | Settles i wire =>
    match nth_error (pending w) i with
    | None => w
    | Some _ =>
      {| ui := snd (sendMessage_resume (settle wire) s);
         pending := remove_nth i (pending w) |}
    end
  end.

Definition run (env : ImportMetaEnv) (w : World) (es : list Event) : World :=
  fold_left (step env) es w.

End Chatbot.

(* ================================================================== *)
(** ** Vocabulary of the statements *)

Module Exchange.

Import AdvancedChatbot.

(** The exchange failed: no response, a timeout, or a status outside 2xx. *)
Definition failed (wire : Wire) : Prop :=
  match wire with
  | NoResponse | TimedOut => True
  | Responded response => (status response < 200 \/ 300 <= status response)%Z
  end.

(** The exchange succeeded: the promise was fulfilled and the [try]
    block ran to its end. *)
Definition successful (o : Outcome) : Prop :=
  exists response fenced,
    o = Fulfilled response
    /\ call_includes (botReply response) FENCE = Normal fenced.

(** One whole exchange with no other event in between: [sendMessage] is
    called in state [s], and the request it issued settles with [o]. *)
Definition exchange (env : ImportMetaEnv) (r1 r2 r' : Readings) (o : Outcome)
  (s : State) : State :=
  match sendMessage env r1 s with
  | (s1, Returned) => s1
  | (s1, Awaiting _) => snd (sendMessage_resume r2 r' o s1)
  end.

(** At most one request waits, and one waits only while [isLoading]. *)
Definition one_in_flight (w : World) : Prop :=
  (List.length (pending w) <= 1)%nat /\ (isLoading (ui w) = false -> pending w = []).

Definition chatbot_one_in_flight (w : Chatbot.World) : Prop :=
  (List.length (Chatbot.pending w) <= 1)%nat
  /\ (Chatbot.isLoading (Chatbot.ui w) = false -> Chatbot.pending w = []).

(** The state in which [sendMessage] leaves [s] once message [m] has
    been appended and the [finally] clause has run. *)
Definition finish (m : Message) (s : State) : State :=
  setIsTyping false (setIsLoading false (setMessages (fun prev => prev ++ [m]) s)).

(** Concrete inputs. *)
Definition no_env : ImportMetaEnv := fun _ => None.

Definition secrets : ImportMetaEnv :=
  fun k => if JsString.eqb k (js "VITE_GEMINI_API_KEY") then Some (js "g-secret")
           else if JsString.eqb k (js "VITE_DEEPSEEKR1_API_KEY") then Some (js "d-secret")
           else None.

Definition at_ (t : Z) : Readings :=
  {| id_now := t; id_random := js "k3j9x0q1z"; date_now := t |}.

Definition ok (content : JSValue) : Wire :=
  Responded {| status := 200; data := completion_body content |}.

Definition typed (v : jsstring) (s : State) : State := setInput (fun _ => v) s.

(** A conversation of two messages, a draft in the input, and a request
    in flight. *)
Definition busy : State :=
  {| messages := [userMessage (at_ 1000) (js "hi");
                  botMessage (at_ 1500) (JSString (js "Hello")) false];
     input := js "draft";
     isLoading := true;
     config := config initial;
     darkMode := false;
     isTyping := true;
     showEmojiPicker := false |}.

End Exchange.
Export Exchange.

(* ================================================================== *)
(** ** Rendering a message *)

Module Rendering.

Import AdvancedChatbot.

(** The first occurrence of [sep] in [s]: what is before it and what is
    after it. *)
Fixpoint breakOn (sep s : jsstring) {struct s} : option (jsstring * jsstring) :=
  if startsWith s sep then Some ([], skipn (List.length sep) s)
  else match s with
       | [] => None
       | c :: r => match breakOn sep r with
                   | Some (before, after) => Some (c :: before, after)
                   | None => None
                   end
       end.

(** At most [n] cuts at successive occurrences of [sep]. *)
Fixpoint split_upto (n : nat) (sep s : jsstring) : list jsstring :=
  match n with
  | O => [s]
  | S n' => match breakOn sep s with
            | None => [s]
            | Some (before, after) => before :: split_upto n' sep after
            end
  end.

(** [String.prototype.split] with a string separator and no limit: the
    pieces between successive occurrences, searched from the left; an
    empty separator gives the code units.  A string has room for no more
    cuts than it has code units. *)
Definition split (s sep : jsstring) : list jsstring :=
  match sep with
  | [] => map (fun c => [c]) s
  | _ :: _ => split_upto (List.length s) sep s
  end.

(** [Array.prototype.join] of strings. *)
Fixpoint join (parts : list jsstring) (sep : jsstring) : jsstring :=
  match parts with
  | [] => []
  | [part] => part
  | part :: rest => part ++ sep ++ join rest sep
  end.

(** [parts.map((part, index) => ...)], the index counted from [i]. *)
Fixpoint map_index {A B} (f : A -> nat -> B) (i : nat) (parts : list A) : list B :=
  match parts with
  | [] => []
  | part :: rest => f part i :: map_index f (S i) rest
  end.

(** The two elements [formatMessage] builds, each with its text. *)
Inductive Element : Type :=
| SyntaxHighlighter (children : jsstring)   (* language javascript, style atomDark *)
| paragraph (children : jsstring).          (* <p className="whitespace-pre-wrap"> *)

Inductive Formatted : Type :=
| Elements (parts : list Element)
| Unformatted (text : JSValue).

(** [formatMessage] of the current revision.  Its argument is declared a
    string and is [msg.text]: on an array [includes] is the array method
    and [split] is not a function. *)
Definition formatMessage (text : JSValue) : Completion Formatted :=
  fenced <- call_includes text FENCE ;;
  if fenced then
    match text with
    | JSString t =>
      let parts := split t FENCE in
      Normal (Elements (map_index
        (fun part index =>
           if Nat.eqb (index mod 2) 1 then SyntaxHighlighter (trim part)
           else paragraph part)
        0%nat parts))
    | _ => Throw TypeError
    end
  else Normal (Unformatted text).

(** The text an element shows. *)
Definition children_of (e : Element) : jsstring :=
  match e with
  | SyntaxHighlighter c => c
  | paragraph c => c
  end.

(** The earlier revision has the same [formatMessage] text and imports
    neither [SyntaxHighlighter] nor [atomDark]: building the element for
    a piece at an odd index reads an identifier that is not defined. *)
Inductive RenderError : Type :=
| NotAFunction                      (* TypeError *)
| NotDefined (name : jsstring).     (* ReferenceError *)

Fixpoint elements_earlier (i : nat) (parts : list jsstring)
  : RenderError + list Element :=
  match parts with
  | [] => inr []
  | part :: rest =>
    if Nat.eqb (i mod 2) 1 then inl (NotDefined (js "SyntaxHighlighter"))
    else match elements_earlier (S i) rest with
         | inl e => inl e
         | inr l => inr (paragraph part :: l)
         end
  end.

Definition formatMessage_earlier (text : JSValue) : RenderError + Formatted :=
  match call_includes text FENCE with
  | Throw _ => inl NotAFunction
  | Normal false => inr (Unformatted text)
  | Normal true =>
    match text with
    | JSString t =>
      match elements_earlier 0 (split t FENCE) with
      | inl e => inl e
      | inr l => inr (Elements l)
      end
    | _ => inl NotAFunction
    end
  end.

End Rendering.
Export Rendering.

(* ================================================================== *)
(** ** AdvancedChatbot, earlier revision: the credential *)

Module EarlierChatbot.

Inductive ModelProvider : Type :=
| OpenAI
| Anthropic.

Definition value (m : ModelProvider) : jsstring :=
  match m with
  | OpenAI => js "openai/gpt-3.5-turbo"
  | Anthropic => js "anthropic/claude-2"
  end.

(** [ModelProvider.Google]: the enum has no such member, and reading it
    gives [undefined]. *)
Definition ModelProvider_Google : JSValue := JSUndefined.

(** [getApiKey]: the [switch] compares [model], a string, with each case
    label by strict equality. *)
Definition getApiKey (env : ImportMetaEnv) (model : jsstring) : option jsstring :=
  if is_string model (JSString (value OpenAI)) then env (js "VITE_OPENAI_API_KEY")
  else if is_string model (JSString (value Anthropic)) then env (js "VITE_ANTHROPIC_API_KEY")
  else if is_string model ModelProvider_Google then env (js "VITE_GOOGLE_API_KEY")
  else Some [].

(** The rest of the earlier revision.  Its interfaces, state hooks and
    setters, [generateId], the handlers of the header buttons and
    [sendMessage] from its [await] on are the text of the current
    revision and are taken from [AdvancedChatbot]; what differs is the
    initial model, the credential and the page. *)
Definition initial : AdvancedChatbot.State := {|
  AdvancedChatbot.messages := [];
  AdvancedChatbot.input := [];
  AdvancedChatbot.isLoading := false;
  AdvancedChatbot.config :=
    {| AdvancedChatbot.model := value OpenAI;
       AdvancedChatbot.temperature := AdvancedChatbot.temperature_default;
       AdvancedChatbot.maxTokens := 300 |};
  AdvancedChatbot.darkMode := false;
  AdvancedChatbot.isTyping := false;
  AdvancedChatbot.showEmojiPicker := false
|}.

Definition createApiClient (env : ImportMetaEnv) (config : AdvancedChatbot.ChatConfig)
  : AdvancedChatbot.AxiosInstance :=
  let apiKey := getApiKey env (AdvancedChatbot.model config) in
  {| AdvancedChatbot.baseURL := js "https://openrouter.ai/api/v1/";
     AdvancedChatbot.timeout := 15000;
     AdvancedChatbot.Authorization := js "Bearer " ++ interpolate apiKey;
     AdvancedChatbot.Content_Type := js "application/json" |}.

(** [sendMessage] up to the [await] of [api.post]. *)
Definition sendMessage (env : ImportMetaEnv) (r : Readings) (s : AdvancedChatbot.State)
  : AdvancedChatbot.State * AdvancedChatbot.Suspended :=
  let trimmedInput := trim (AdvancedChatbot.input s) in
  if negb (nonEmpty trimmedInput) then (s, AdvancedChatbot.Returned)
  else
    let userMessage := AdvancedChatbot.userMessage r trimmedInput in
    let s1 := AdvancedChatbot.setMessages (fun prev => prev ++ [userMessage]) s in
    let s2 := AdvancedChatbot.setInput (fun _ => []) s1 in
    let s3 := AdvancedChatbot.setIsLoading true s2 in
    let s4 := AdvancedChatbot.setIsTyping true s3 in
    let api := createApiClient env (AdvancedChatbot.config s) in
    (s4, AdvancedChatbot.Awaiting
           {| AdvancedChatbot.api := api;
              AdvancedChatbot.url := js "chat/completions";
              AdvancedChatbot.body :=
                {| AdvancedChatbot.body_model :=
                     AdvancedChatbot.model (AdvancedChatbot.config s);
                   AdvancedChatbot.body_messages :=
                     [{| AdvancedChatbot.role := js "user";
                         AdvancedChatbot.content := trimmedInput |}];
                   AdvancedChatbot.max_tokens :=
                     AdvancedChatbot.maxTokens (AdvancedChatbot.config s);
                   AdvancedChatbot.body_temperature :=
                     AdvancedChatbot.temperature (AdvancedChatbot.config s) |} |}).

Definition handleKeyPress (env : ImportMetaEnv) (key : jsstring) (shiftKey : bool)
  (r : Readings) (s : AdvancedChatbot.State)
  : AdvancedChatbot.State * AdvancedChatbot.Suspended :=
  if JsString.eqb key (js "Enter") && negb shiftKey
  then sendMessage env r s
  else (s, AdvancedChatbot.Returned).

(** The page: the send button has [disabled={isLoading || !input.trim()}]
    and the input has [disabled={isLoading}]. *)
Definition render (s : AdvancedChatbot.State) : AdvancedChatbot.View :=
  {| AdvancedChatbot.input_disabled := AdvancedChatbot.isLoading s;
     AdvancedChatbot.send_disabled :=
       AdvancedChatbot.isLoading s
       || negb (nonEmpty (trim (AdvancedChatbot.input s)));
     AdvancedChatbot.picker_shown := AdvancedChatbot.showEmojiPicker s |}.

Definition start : AdvancedChatbot.World :=
  {| AdvancedChatbot.ui := initial; AdvancedChatbot.pending := [] |}.

Inductive Event : Type :=
| Change (v : jsstring)
| KeyPress (key : jsstring) (shiftKey : bool) (r : Readings)
| ClickSend (r : Readings)
| ClickClear
| SelectModel (m : ModelProvider)
| ClickDarkMode
| ClickEmojiButton
| EmojiSelect (native : jsstring)
| Settles (i : nat) (wire : Wire) (r r' : Readings).

(** One event of the page, while the page renders; an event on a disabled
    control is not delivered. *)
Definition step (env : ImportMetaEnv) (w : AdvancedChatbot.World) (e : Event)
  : AdvancedChatbot.World :=
  let s := AdvancedChatbot.ui w in
  match e with
  | Change v =>
    if AdvancedChatbot.input_disabled (render s) then w
    else AdvancedChatbot.with_ui w (AdvancedChatbot.setInput (fun _ => v) s)
  | KeyPress key shiftKey r =>
    if AdvancedChatbot.input_disabled (render s) then w
    else AdvancedChatbot.launch w (handleKeyPress env key shiftKey r s)
  | ClickSend r =>
    if AdvancedChatbot.send_disabled (render s) then w
    else AdvancedChatbot.launch w (sendMessage env r s)
  | ClickClear => AdvancedChatbot.with_ui w (AdvancedChatbot.clearChat s)
  | SelectModel m =>
    AdvancedChatbot.with_ui w (AdvancedChatbot.selectModel (value m) s)
  | ClickDarkMode =>
    AdvancedChatbot.with_ui w
      (AdvancedChatbot.setDarkMode (negb (AdvancedChatbot.darkMode s)) s)
  | ClickEmojiButton =>
    AdvancedChatbot.with_ui w
      (AdvancedChatbot.setShowEmojiPicker (negb (AdvancedChatbot.showEmojiPicker s)) s)
  | EmojiSelect native =>
    if AdvancedChatbot.picker_shown (render s)
    then AdvancedChatbot.with_ui w (AdvancedChatbot.handleEmojiSelect native s)
    else w
  | Settles i wire r r' =>
    match nth_error (AdvancedChatbot.pending w) i with
    | None => w
    | Some _ =>
      {| AdvancedChatbot.ui :=
           snd (AdvancedChatbot.sendMessage_resume r r' (settle wire) s);
         AdvancedChatbot.pending := remove_nth i (AdvancedChatbot.pending w) |}
    end
  end.

Definition run (env : ImportMetaEnv) (w : AdvancedChatbot.World) (es : list Event)
  : AdvancedChatbot.World :=
  fold_left (step env) es w.

Definition reachable (env : ImportMetaEnv) (w : AdvancedChatbot.World) : Prop :=
  exists es, run env start es = w.

End EarlierChatbot.

(* ================================================================== *)
(** ** Vocabulary of the further statements *)

Module Conversation.

Import AdvancedChatbot.

Definition is_You (m : Message) : bool :=
  match user m with You => true | Bot => false end.

Definition is_Bot (m : Message) : bool :=
  match user m with You => false | Bot => true end.

(** How many messages of a conversation each side wrote. *)
Definition written_by_You (l : list Message) : nat := List.length (filter is_You l).
Definition written_by_Bot (l : list Message) : nat := List.length (filter is_Bot l).

(** A string with no white space at either end. *)
Definition trimmed (t : jsstring) : Prop :=
  (forall c r, t = c :: r -> isWhiteSpace c = false)
  /\ (forall c r, t = r ++ [c] -> isWhiteSpace c = false).

(** What [sendMessage] stores: a message of the user holds a non-empty
    trimmed string and no type; a message of the bot is the error
    message, or holds a truthy reply on which [includes] answered,
    with the type that answer gave; no message has reactions. *)
Definition stored (m : Message) : Prop :=
  reactions m = None
  /\ match user m with
     | You => type m = None
              /\ exists t, text m = JSString t /\ t <> [] /\ trimmed t
     | Bot => (type m = Some type_error /\ text m = JSString ERROR_REPLY)
              \/ (truthy (text m) = true
                  /\ exists fenced,
                       call_includes (text m) FENCE = Normal fenced
                       /\ type m = Some (if fenced then type_code else type_default))
     end.

(** The events of the current revision that issue a request: Enter
    without Shift in the input, or a click on the send button while no
    reply is awaited, each with a non-blank input. *)
Definition submits (w : World) (e : Event) : Prop :=
  nonEmpty (trim (input (ui w))) = true
  /\ ((exists r, e = KeyPress (js "Enter") false r)
      \/ (isLoading (ui w) = false /\ exists r, e = ClickSend r)).

(** Every message of the user is answered or waits for its answer. *)
Definition balanced (w : World) : Prop :=
  written_by_You (messages (ui w))
  = (written_by_Bot (messages (ui w)) + List.length (pending w))%nat.

(** What each kind of event does to the messages, the flags and the
    requests in flight. *)
Inductive Effect (w : World) (e : Event) (w' : World) : Prop :=
| Quiet :
    messages (ui w') = messages (ui w) -> pending w' = pending w ->
    isLoading (ui w') = isLoading (ui w) -> isTyping (ui w') = isTyping (ui w) ->
    Effect w e w'
| Submitted (r : Readings) (request : Request) :
    e = KeyPress (js "Enter") false r \/ e = ClickSend r ->
    nonEmpty (trim (input (ui w))) = true ->
    messages (ui w') = messages (ui w) ++ [userMessage r (trim (input (ui w)))] ->
    pending w' = pending w ++ [request] ->
    isLoading (ui w') = true -> isTyping (ui w') = true ->
    Effect w e w'
| Settled (i : nat) (request : Request) (m : Message) :
    nth_error (pending w) i = Some request ->
    messages (ui w') = messages (ui w) ++ [m] ->
    user m = Bot -> stored m ->
    pending w' = remove_nth i (pending w) ->
    isLoading (ui w') = false -> isTyping (ui w') = false ->
    Effect w e w'
| Cleared :
    e = ClickClear ->
    messages (ui w') = [] -> pending w' = pending w ->
    isLoading (ui w') = isLoading (ui w) -> isTyping (ui w') = isTyping (ui w) ->
    Effect w e w'.

(** A message with its reactions replaced. *)
Definition with_reactions (m : Message) (l : option (list jsstring)) : Message :=
  {| id := id m; user := user m; text := text m; timestamp := timestamp m;
     type := type m; reactions := l |}.

Definition reactions_or_none (m : Message) : list jsstring :=
  match reactions m with Some l => l | None => [] end.

(** What [handleReaction] does to one message. *)
Definition react (messageId emoji : jsstring) (msg : Message) : Message :=
  if JsString.eqb (id msg) messageId
  then with_reactions msg (Some (reactions_or_none msg ++ [emoji]))
  else msg.

(** The code units of a decimal numeral are ASCII and none is the
    underscore. *)
Definition numeral_char (b : N) : Prop := b < 128 /\ b <> 95.

(** Concrete inputs: a request, a page with that request in flight, and
    a short conversation in which a second message is sent while the
    first is awaited. *)
Definition a_request : Request :=
  {| api := createApiClient no_env (config initial);
     url := js "chat/completions";
     body := {| body_model := model (config initial);
                body_messages := [{| role := js "user"; content := js "hi" |}];
                max_tokens := maxTokens (config initial);
                body_temperature := temperature (config initial) |} |}.

Definition waiting : World := {| ui := busy; pending := [a_request] |}.

Definition a_conversation : list Event :=
  [Change (js " hi "); ClickSend (at_ 1000);
   Change (js "and ```x```"); KeyPress (js "Enter") false (at_ 1100);
   Settles 1 (ok (JSString (js "see ```y``` "))) (at_ 1500) (at_ 1501);
   Settles 0 TimedOut (at_ 16000) (at_ 16001)].

(** A conversation whose reply has an array as content, with the fence
    string among its elements. *)
Definition fenced_parts : JSValue :=
  JSArray [JSString (js "see"); JSString FENCE; JSString (js "x = 1")].

Definition an_array_reply : list Event :=
  [Change (js "show me"); ClickSend (at_ 1000);
   Settles 0 (ok fenced_parts) (at_ 1500) (at_ 1501)].

End Conversation.
Export Conversation.

(* ================================================================== *)
(** * Properties *)

(** ** Strings *)

Section StringFacts.

Lemma eqb_refl (a : jsstring) : JsString.eqb a a = true.
Proof.
  induction a as [|x a IH]; simpl; [reflexivity|].
  now rewrite N.eqb_refl, IH.
Qed.

Lemma eqb_eq (a b : jsstring) : JsString.eqb a b = true <-> a = b.
Proof.
  split; [|intros ->; apply eqb_refl].
  revert b; induction a as [|x a IH]; intros [|y b]; simpl; try discriminate; auto.
  intros H; apply andb_true_iff in H as [Hxy Hab].
  apply N.eqb_eq in Hxy; apply IH in Hab; congruence.
Qed.

Lemma eqb_neq (a b : jsstring) : JsString.eqb a b = false <-> a <> b.
Proof.
  split.
  - intros H ->; rewrite eqb_refl in H; discriminate.
  - intros H; destruct (JsString.eqb a b) eqn:E; [|reflexivity].
    apply eqb_eq in E; contradiction.
Qed.

Lemma trimStart_blank (s : jsstring) : blank s -> trimStart s = [].
Proof.
  induction 1 as [|c s Hc _ IH]; simpl; [reflexivity|].
  now rewrite Hc.
Qed.

Lemma trim_blank (s : jsstring) : blank s -> trim s = [].
Proof.
  intros H; unfold trim, trimEnd; now rewrite (trimStart_blank s H).
Qed.

(** [trimStart] drops a blank prefix and nothing else. *)
Lemma trimStart_split (s : jsstring) :
  exists pre, blank pre /\ s = pre ++ trimStart s.
Proof.
  induction s as [|c s [pre [Hb Hs]]]; simpl.
  - exists []; split; [constructor|reflexivity].
  - destruct (isWhiteSpace c) eqn:Hc.
    + exists (c :: pre); split; [constructor; assumption|].
      simpl; now rewrite <- Hs.
    + exists []; split; [constructor|reflexivity].
Qed.

Lemma blank_app (a b : jsstring) : blank (a ++ b) <-> blank a /\ blank b.
Proof. apply Forall_app. Qed.

Lemma blank_rev (a : jsstring) : blank a -> blank (rev a).
Proof. apply Forall_rev. Qed.

(** The converse of [trim_blank]: only blank strings trim to nothing. *)
Lemma trim_empty_blank (s : jsstring) : trim s = [] -> blank s.
Proof.
  unfold trim, trimEnd; intros H.
  destruct (trimStart_split s) as [pre [Hpre Hs]].
  destruct (trimStart_split (rev (trimStart s))) as [suf [Hsuf Hr]].
  assert (Ht : trimStart (rev (trimStart s)) = []).
  { apply (f_equal (@rev N)) in H; rewrite rev_involutive in H; exact H. }
  rewrite Ht, app_nil_r in Hr.
  rewrite Hs; apply blank_app; split; [exact Hpre|].
  rewrite <- (rev_involutive (trimStart s)), Hr.
  now apply blank_rev.
Qed.

Lemma startsWith_spec (s p : jsstring) :
  startsWith s p = true <-> exists after, s = p ++ after.
Proof.
  revert s; induction p as [|x p IH]; intros s; simpl.
  - split; [intros _; now exists s | intros _; destruct s; reflexivity].
  - destruct s as [|y s]; simpl.
    + split; [discriminate | intros [a Ha]; discriminate].
    + rewrite andb_true_iff, N.eqb_eq, IH; split.
      * intros [-> [a ->]]; now exists a.
      * intros [a Ha]; injection Ha as -> ->; split; [reflexivity | now exists a].
Qed.

Lemma includes_spec (s p : jsstring) :
  includes s p = true <-> occurs_in p s.
Proof.
  unfold occurs_in; induction s as [|c s IH]; cbn [includes].
  - rewrite orb_false_r, startsWith_spec; split.
    + intros [a Ha]; now exists [], a.
    + intros [b [a Ha]]; destruct b as [|? ?]; [now exists a | discriminate].
  - rewrite orb_true_iff, startsWith_spec, IH; split.
    + intros [[a Ha] | [b [a Ha]]].
      * now exists [], a.
      * exists (c :: b), a; simpl; now rewrite Ha.
    + intros [b [a Ha]]; destruct b as [|x b]; simpl in Ha.
      * left; now exists a.
      * right; injection Ha as _ ->; now exists b, a.
Qed.

Lemma includes_false (s p : jsstring) :
  includes s p = false <-> ~ occurs_in p s.
Proof.
  rewrite <- includes_spec; destruct (includes s p); split; congruence.
Qed.

End StringFacts.

Example js_ascii : js "msg_" = [109; 115; 103; 95].
Proof. reflexivity. Qed.

Example js_cyrillic : js "Вы" = [0x412; 0x44B].
Proof. reflexivity. Qed.

Example trim_example : trim (js "  hi there 	") = js "hi there".
Proof. reflexivity. Qed.

Example trim_nbsp : trim [0x00A0; 0x3000; 9; 10] = [].
Proof. reflexivity. Qed.

Example includes_fence :
  includes (js "see ```x = 1``` here") (js "```") = true
  /\ includes (js "plain `` text") (js "```") = false.
Proof. split; reflexivity. Qed.

Example generateId_example :
  AdvancedChatbot.generateId
    {| id_now := 1700000000000; id_random := js "k3j9x0q1z"; date_now := 1700000000001 |}
  = js "msg_1700000000000_k3j9x0q1z".
Proof. reflexivity. Qed.

(* ================================================================== *)
(** ** AdvancedChatbot: one exchange *)

Section Exchange.

Import AdvancedChatbot.

Variable env : ImportMetaEnv.

Lemma sendMessage_blank (r : Readings) (s : State) :
  blank (input s) -> sendMessage env r s = (s, Returned).
Proof.
  intros H; unfold sendMessage; now rewrite (trim_blank _ H).
Qed.

Lemma sendMessage_returned (r : Readings) (s s' : State) :
  sendMessage env r s = (s', Returned) -> blank (input s) /\ s' = s.
Proof.
  unfold sendMessage; destruct (trim (input s)) eqn:E; simpl.
  - intros H; injection H as <-; split; [now apply trim_empty_blank | reflexivity].
  - discriminate.
Qed.

Lemma sendMessage_awaits (r : Readings) (s : State) :
  nonEmpty (trim (input s)) = true ->
  exists request,
    sendMessage env r s = (setIsTyping true (setIsLoading true (setInput (fun _ => [])
                             (setMessages (fun prev => prev ++ [userMessage r (trim (input s))]) s))),
                           Awaiting request)
    /\ api request = createApiClient env (config s)
    /\ body_model (body request) = model (config s)
    /\ body_messages (body request) = [{| role := js "user"; content := trim (input s) |}].
Proof.
  intros H; unfold sendMessage; rewrite H; simpl.
  eexists; split; [reflexivity|]; split; [|split]; reflexivity.
Qed.

Lemma resume_rejected (r r' : Readings) (e : AxiosError) (s : State) :
  sendMessage_resume r r' (Rejected e) s
  = (Normal tt,
     setIsTyping false (setIsLoading false
       (setMessages (fun prev => prev ++ [errorMessage r']) s))).
Proof. reflexivity. Qed.

Lemma resume_fulfilled (r r' : Readings) (response : AxiosResponse) (s : State) :
  sendMessage_resume r r' (Fulfilled response) s
  = (Normal tt,
     setIsTyping false (setIsLoading false
       (setMessages (fun prev => prev ++
          [match call_includes (botReply response) FENCE with
           | Normal fenced => botMessage r (botReply response) fenced
           | Throw _ => errorMessage r'
           end]) s))).
Proof.
  unfold sendMessage_resume, try_catch_finally, try_block.
  destruct (call_includes (botReply response) FENCE); reflexivity.
Qed.

(** The [try] block runs to its end exactly on a fulfilled promise whose
    reply value has an [includes] method. *)
Lemma try_block_completes (r : Readings) (o : Outcome) (s : State) :
  fst (try_block r o s) = Normal tt <->
  exists response fenced,
    o = Fulfilled response /\ call_includes (botReply response) FENCE = Normal fenced.
Proof.
  unfold try_block; destruct o as [response|e]; simpl.
  - destruct (call_includes (botReply response) FENCE) as [b|t] eqn:E; simpl.
    + split; [intros _; now exists response, b | reflexivity].
    + split; [discriminate | intros [? [? [H1 H2]]]; injection H1 as <-; congruence].
  - split; [discriminate | intros [? [? [H _]]]; discriminate].
Qed.

(** Whatever the [try] and [catch] blocks do, [finally_block] has the
    last word on [isLoading]. *)
Lemma finally_releases (t : Block State) (c : Thrown -> Block State) (s : State) :
  isLoading (snd (try_catch_finally t c finally_block s)) = false.
Proof.
  unfold try_catch_finally.
  destruct (t s) as [c1 s1]; destruct c1 as [u|e].
  - reflexivity.
  - destruct (c e s1) as [c2 s2]; reflexivity.
Qed.

End Exchange.

Section ChatbotExchange.

Variable env : ImportMetaEnv.

Lemma chatbot_sendMessage_blank (s : Chatbot.State) :
  blank (Chatbot.input s) -> Chatbot.sendMessage env s = (s, Chatbot.Returned).
Proof.
  intros H; unfold Chatbot.sendMessage; now rewrite (trim_blank _ H).
Qed.

Lemma chatbot_finally_releases
  (t : Block Chatbot.State) (c : Thrown -> Block Chatbot.State) (s : Chatbot.State) :
  Chatbot.isLoading
    (snd (try_catch_finally t c Chatbot.finally_block s)) = false.
Proof.
  unfold try_catch_finally.
  destruct (t s) as [c1 s1]; destruct c1 as [u|e].
  - reflexivity.
  - destruct (c e s1) as [c2 s2]; reflexivity.
Qed.

Lemma chatbot_resume_rejected (e : AxiosError) (s : Chatbot.State) :
  Chatbot.sendMessage_resume (Rejected e) s
  = (Normal tt,
     Chatbot.setIsLoading false
       (Chatbot.setMessages (fun prev => prev ++
          [{| Chatbot.user := Chatbot.BOT;
              Chatbot.text := JSString Chatbot.ERROR_REPLY |}]) s)).
Proof. reflexivity. Qed.

End ChatbotExchange.

(* ================================================================== *)
(** ** The claims *)

Section Claims.

Import AdvancedChatbot.

(** *** Submission while a request is in flight *)

Lemma sendMessage_cases (env : ImportMetaEnv) (r : Readings) (s : State) :
  sendMessage env r s = (s, Returned)
  \/ exists s' request,
       sendMessage env r s = (s', Awaiting request) /\ isLoading s' = true.
Proof.
  unfold sendMessage; destruct (nonEmpty (trim (input s))); simpl.
  - right; eexists; eexists; split; reflexivity.
  - now left.
Qed.

Lemma handleKeyPress_cases (env : ImportMetaEnv) key shiftKey (r : Readings) (s : State) :
  handleKeyPress env key shiftKey r s = (s, Returned)
  \/ exists s' request,
       handleKeyPress env key shiftKey r s = (s', Awaiting request)
       /\ isLoading s' = true.
Proof.
  unfold handleKeyPress.
  destruct (JsString.eqb key (js "Enter") && negb shiftKey);
    [apply sendMessage_cases | now left].
Qed.

Lemma launch_idle (w : World) (res : State * Suspended) :
  one_in_flight w -> isLoading (ui w) = false ->
  (res = (ui w, Returned)
   \/ exists s' request, res = (s', Awaiting request) /\ isLoading s' = true) ->
  one_in_flight (launch w res).
Proof.
  intros [Hlen Hidle] Hl [-> | [s' [request [-> Hs']]]]; unfold one_in_flight; simpl.
  - split; [exact Hlen | intros _; now apply Hidle].
  - rewrite (Hidle Hl); simpl; split; [lia | congruence].
Qed.

Lemma remove_nth_single {A} (i : nat) (l : list A) (x : A) :
  (List.length l <= 1)%nat -> nth_error l i = Some x -> remove_nth i l = [].
Proof.
  destruct l as [|y [|z l]]; simpl; intros Hlen Hn.
  - destruct i; discriminate.
  - destruct i as [|i]; [reflexivity | destruct i; discriminate].
  - lia.
Qed.

(** In the current revision the send button is inert while a reply is
    awaited. *)
Lemma click_while_loading (env : ImportMetaEnv) (w : World) (r : Readings) :
  isLoading (ui w) = true -> step render env w (ClickSend r) = w.
Proof. intros H; simpl; now rewrite H. Qed.

(** In the current revision Enter in the input submits whatever
    [isLoading] says. *)
Lemma enter_ignores_isLoading (env : ImportMetaEnv) (w : World) (r : Readings) :
  nonEmpty (trim (input (ui w))) = true ->
  exists request,
    pending (step render env w (KeyPress (js "Enter") false r))
    = pending w ++ [request].
Proof.
  intros H; simpl.
  change (JsString.eqb (js "Enter") (js "Enter") && negb false) with true.
  unfold handleKeyPress; simpl.
  destruct (sendMessage_awaits env r (ui w) H) as [request [E _]].
  rewrite E; simpl; now exists request.
Qed.

(** C1 (the current revision breaks it).  The claim: while [isLoading]
    is true neither the send button nor Enter starts a second request.
    Here a message is typed and sent, a second one is typed while the
    reply is awaited, and Enter is pressed: the state before the key
    press is reachable, [isLoading] is true in it and the button is
    disabled, and after the key press two requests are in flight, the
    second carrying the second text. *)
Theorem C1_enter_starts_second_request :
  forall env : ImportMetaEnv,
    let w := run render env start
               [Change (js "hi"); ClickSend (at_ 1000); Change (js "yo")] in
    let w' := step render env w (KeyPress (js "Enter") false (at_ 1200)) in
    reachable render env w
    /\ isLoading (ui w) = true
    /\ send_disabled (render (ui w)) = true
    /\ List.length (pending w) = 1%nat
    /\ List.length (pending w') = 2%nat
    /\ map (fun request => body_messages (body request)) (pending w')
       = [[{| role := js "user"; content := js "hi" |}];
          [{| role := js "user"; content := js "yo" |}]]
    /\ ~ one_in_flight w'.
Proof.
  intros env; cbv zeta; split; [eexists; reflexivity|].
  repeat split; try reflexivity.
  intros [Hlen _]; vm_compute in Hlen; lia.
Qed.

(** *** The awaiting flag *)

(** C2.  However the request settles (fulfilled, rejected by the network,
    by the timeout or by the status, or fulfilled with a value whose
    handling throws), [sendMessage] completes normally with [isLoading]
    false; and the release rests on the [finally] clause alone: with any
    [try] and [catch] blocks in front of it the flag ends false.  The
    same holds of [Chatbot]. *)
Theorem C2_awaiting_flag_released :
  (forall (r r' : Readings) (o : Outcome) (s : State),
      exists s', sendMessage_resume r r' o s = (Normal tt, s')
                 /\ isLoading s' = false)
  /\ (forall (t : Block State) (c : Thrown -> Block State) (s : State),
         isLoading (snd (try_catch_finally t c finally_block s)) = false)
  /\ (forall (o : Outcome) (s : Chatbot.State),
         exists s', Chatbot.sendMessage_resume o s = (Normal tt, s')
                    /\ Chatbot.isLoading s' = false)
  /\ (forall (t : Block Chatbot.State) (c : Thrown -> Block Chatbot.State)
             (s : Chatbot.State),
         Chatbot.isLoading
           (snd (try_catch_finally t c Chatbot.finally_block s)) = false).
Proof.
  split; [|split; [|split]].
  - intros r r' [response|e] s.
    + rewrite resume_fulfilled; eexists; split; reflexivity.
    + rewrite resume_rejected; eexists; split; reflexivity.
  - apply finally_releases.
  - intros [response|e] s.
    + unfold Chatbot.sendMessage_resume, try_catch_finally, Chatbot.try_block.
      destruct (Chatbot.botReply response); eexists; split; reflexivity.
    + rewrite chatbot_resume_rejected; eexists; split; reflexivity.
  - apply chatbot_finally_releases.
Qed.

(** *** Failed exchanges *)

Lemma failed_rejected (wire : Wire) :
  failed wire -> exists e, settle wire = Rejected e.
Proof.
  destruct wire as [| |response]; simpl; intros H.
  - now exists ERR_NETWORK.
  - now exists ECONNABORTED.
  - exists (ERR_BAD_RESPONSE (status response)).
    destruct H as [H|H].
    + replace (200 <=? status response)%Z with false by (symmetry; apply Z.leb_gt; lia).
      reflexivity.
    + replace (status response <? 300)%Z with false by (symmetry; apply Z.ltb_ge; lia).
      now rewrite andb_false_r.
Qed.

(** C5.  When the exchange fails (no response, timeout or a status outside
    2xx), [sendMessage] completes normally, and the messages afterwards
    are the messages before followed by exactly one message, written by
    the bot and of type error.  In [Chatbot], whose messages have no
    type, it is one message of the bot with the error text. *)
Theorem C5_failure_appends_one_error_message :
  forall (r r' : Readings) (wire : Wire) (s : State) (cs : Chatbot.State),
    failed wire ->
    (exists s' m,
        sendMessage_resume r r' (settle wire) s = (Normal tt, s')
        /\ messages s' = messages s ++ [m]
        /\ user m = Bot
        /\ type m = Some type_error
        /\ text m = JSString ERROR_REPLY)
    /\ (exists cs' m,
          Chatbot.sendMessage_resume (settle wire) cs = (Normal tt, cs')
          /\ Chatbot.messages cs' = Chatbot.messages cs ++ [m]
          /\ Chatbot.user m = Chatbot.BOT
          /\ Chatbot.text m = JSString Chatbot.ERROR_REPLY).
Proof.
  intros r r' wire s cs H.
  destruct (failed_rejected wire H) as [e ->]; split.
  - rewrite resume_rejected.
    eexists; exists (errorMessage r'); repeat split.
  - rewrite chatbot_resume_rejected.
    eexists; eexists; repeat split.
Qed.

Lemma C5_failure_appends_one_error_message_witness :
  failed TimedOut
  /\ (exists s' m,
        sendMessage_resume (at_ 2000) (at_ 2001) (settle TimedOut) busy = (Normal tt, s')
        /\ messages s' = messages busy ++ [m]
        /\ user m = Bot
        /\ type m = Some type_error
        /\ text m = JSString ERROR_REPLY)
  /\ (exists cs' m,
        Chatbot.sendMessage_resume (settle TimedOut) Chatbot.initial = (Normal tt, cs')
        /\ Chatbot.messages cs' = Chatbot.messages Chatbot.initial ++ [m]
        /\ Chatbot.user m = Chatbot.BOT
        /\ Chatbot.text m = JSString Chatbot.ERROR_REPLY).
Proof.
  split; [exact I|].
  apply (C5_failure_appends_one_error_message
           (at_ 2000) (at_ 2001) TimedOut busy Chatbot.initial).
  exact I.
Defined.

(** *** Blank submissions *)

(** C6.  When the input is empty or holds only white space, [sendMessage]
    returns at once, and neither a click on the send button nor Enter
    changes anything: the messages are the same and no request is
    added.  So it is in [AdvancedChatbot], whatever the page disables,
    and in [Chatbot]. *)
Theorem C6_blank_submission_suppressed :
  forall (env : ImportMetaEnv) (view : State -> View) (r : Readings)
         (w : World) (cw : Chatbot.World),
    blank (input (ui w)) ->
    blank (Chatbot.input (Chatbot.ui cw)) ->
    (sendMessage env r (ui w) = (ui w, Returned)
     /\ step view env w (ClickSend r) = w
     /\ step view env w (KeyPress (js "Enter") false r) = w)
    /\ (Chatbot.sendMessage env (Chatbot.ui cw) = (Chatbot.ui cw, Chatbot.Returned)
        /\ Chatbot.step env cw Chatbot.ClickSend = cw
        /\ Chatbot.step env cw (Chatbot.KeyDown (js "Enter") false) = cw).
Proof.
  intros env view r w cw Hw Hcw.
  pose proof (sendMessage_blank env r _ Hw) as E.
  pose proof (chatbot_sendMessage_blank env _ Hcw) as Ec.
  split; split; try assumption.
  - destruct w as [s p]; simpl in *; split.
    + destruct (send_disabled (view s)); [reflexivity | now rewrite E].
    + destruct (input_disabled (view s)); [reflexivity|].
      unfold handleKeyPress.
      change (JsString.eqb (js "Enter") (js "Enter") && negb false) with true.
      cbv iota; now rewrite E.
  - destruct cw as [s p]; simpl in *; split.
    + destruct (Chatbot.isLoading s); [reflexivity | now rewrite Ec].
    + destruct (Chatbot.isLoading s); [reflexivity|].
      unfold Chatbot.handleKeyPress.
      change (JsString.eqb (js "Enter") (js "Enter") && negb false) with true.
      cbv iota; now rewrite Ec.
Qed.

Lemma C6_blank_submission_suppressed_witness :
  let w := with_ui start (typed (js "   ") initial) in
  let cw := {| Chatbot.ui := Chatbot.setInput [0x00A0; 9] Chatbot.initial;
               Chatbot.pending := [] |} in
  (blank (input (ui w)) /\ blank (Chatbot.input (Chatbot.ui cw)))
  /\ (sendMessage no_env (at_ 1000) (ui w) = (ui w, Returned)
      /\ step render no_env w (ClickSend (at_ 1000)) = w
      /\ step render no_env w (KeyPress (js "Enter") false (at_ 1000)) = w)
  /\ (Chatbot.sendMessage no_env (Chatbot.ui cw) = (Chatbot.ui cw, Chatbot.Returned)
      /\ Chatbot.step no_env cw Chatbot.ClickSend = cw
      /\ Chatbot.step no_env cw (Chatbot.KeyDown (js "Enter") false) = cw).
Proof.
  cbv zeta.
  assert (Hw : blank (input (ui (with_ui start (typed (js "   ") initial))))).
  { repeat constructor. }
  assert (Hcw : blank (Chatbot.input (Chatbot.ui
                   {| Chatbot.ui := Chatbot.setInput [0x00A0; 9] Chatbot.initial;
                      Chatbot.pending := [] |}))).
  { repeat constructor. }
  split; [split; assumption|].
  exact (C6_blank_submission_suppressed no_env render (at_ 1000) _ _ Hw Hcw).
Defined.

(** *** Successful exchanges *)

Lemma resume_successful (r r' : Readings) (o : Outcome) (s : State) :
  successful o ->
  exists response fenced,
    o = Fulfilled response
    /\ call_includes (botReply response) FENCE = Normal fenced
    /\ sendMessage_resume r r' o s
       = (Normal tt,
          setIsTyping false (setIsLoading false
            (setMessages (fun prev => prev ++
               [botMessage r (botReply response) fenced]) s))).
Proof.
  intros [response [fenced [-> E]]]; exists response, fenced.
  split; [reflexivity|]; split; [exact E|].
  rewrite resume_fulfilled, E; reflexivity.
Qed.

Lemma exchange_successful
  (env : ImportMetaEnv) (r1 r2 r' : Readings) (o : Outcome) (s : State) :
  nonEmpty (trim (input s)) = true -> successful o ->
  exists response fenced,
    o = Fulfilled response
    /\ call_includes (botReply response) FENCE = Normal fenced
    /\ messages (exchange env r1 r2 r' o s)
       = messages s ++ [userMessage r1 (trim (input s));
                        botMessage r2 (botReply response) fenced].
Proof.
  intros Hin Hok.
  destruct (sendMessage_awaits env r1 s Hin) as [request [E _]].
  unfold exchange; rewrite E.
  destruct (resume_successful r2 r' o
              (setIsTyping true (setIsLoading true (setInput (fun _ => [])
                 (setMessages (fun prev => prev ++ [userMessage r1 (trim (input s))]) s))))
              Hok) as [response [fenced [Ho [Hc ->]]]].
  exists response, fenced; split; [exact Ho|]; split; [exact Hc|].
  simpl; now rewrite <- app_assoc.
Qed.

(** C3 as the claim states it fails: the clock is read once at submission
    and once when the reply arrives, and when both readings are the same
    millisecond the two timestamps are equal. *)
Lemma C3_counterexample :
  let s := typed (js "hi") initial in
  let o := settle (ok (JSString (js "Hello"))) in
  nonEmpty (trim (input s)) = true
  /\ successful o
  /\ exists u b,
       messages (exchange no_env (at_ 1000) (at_ 1000) (at_ 1000) o s)
       = messages s ++ [u; b]
       /\ user u = You /\ user b = Bot
       /\ ~ (timestamp u < timestamp b)%Z.
Proof.
  cbv zeta; split; [reflexivity|]; split.
  - eexists; exists false; split; reflexivity.
  - eexists; eexists; split; [reflexivity|].
    split; [reflexivity|]; split; [reflexivity|]; simpl; lia.
Qed.

(** C3 (amended).  A successful exchange started with a non-blank input
    appends exactly two messages, the user's and then the bot's; the
    user's text is the trimmed input; each timestamp is the clock reading
    taken when its message is built, so the bot's is strictly greater
    than the user's exactly when the clock advanced between the two
    readings. *)
Theorem C3_successful_exchange_appends_two :
  forall (env : ImportMetaEnv) (r1 r2 r' : Readings) (o : Outcome) (s : State),
    nonEmpty (trim (input s)) = true ->
    successful o ->
    exists u b,
      messages (exchange env r1 r2 r' o s) = messages s ++ [u; b]
      /\ user u = You /\ text u = JSString (trim (input s))
      /\ user b = Bot
      /\ timestamp u = date_now r1
      /\ timestamp b = date_now r2
      /\ ((timestamp u < timestamp b)%Z <-> (date_now r1 < date_now r2)%Z).
Proof.
  intros env r1 r2 r' o s Hin Hok.
  destruct (exchange_successful env r1 r2 r' o s Hin Hok)
    as [response [fenced [_ [_ E]]]].
  exists (userMessage r1 (trim (input s))), (botMessage r2 (botReply response) fenced).
  split; [exact E|]; simpl; intuition.
Qed.

Lemma C3_successful_exchange_appends_two_witness :
  let s := typed (js "  hi ") initial in
  let o := settle (ok (JSString (js "Hello"))) in
  (nonEmpty (trim (input s)) = true /\ successful o)
  /\ exists u b,
      messages (exchange secrets (at_ 1000) (at_ 1750) (at_ 1751) o s)
      = messages s ++ [u; b]
      /\ user u = You /\ text u = JSString (trim (input s))
      /\ user b = Bot
      /\ timestamp u = date_now (at_ 1000)
      /\ timestamp b = date_now (at_ 1750)
      /\ ((timestamp u < timestamp b)%Z <-> (date_now (at_ 1000) < date_now (at_ 1750))%Z).
Proof.
  cbv zeta.
  assert (Hin : nonEmpty (trim (input (typed (js "  hi ") initial))) = true)
    by reflexivity.
  assert (Hok : successful (settle (ok (JSString (js "Hello"))))).
  { eexists; exists false; split; reflexivity. }
  split; [split; assumption|].
  exact (C3_successful_exchange_appends_two secrets (at_ 1000) (at_ 1750) (at_ 1751)
           _ _ Hin Hok).
Defined.

(** *** The reply text *)

Lemma nonEmpty_true (t : jsstring) : t <> [] -> nonEmpty t = true.
Proof. destruct t; [contradiction | reflexivity]. Qed.

(** A falsy content gives the fixed reply, which is no code. *)
Lemma botReply_falsy (response : AxiosResponse) :
  truthy (reply_content response) = false ->
  botReply response = JSString NO_REPLY
  /\ call_includes (botReply response) FENCE = Normal false.
Proof.
  intros H; unfold botReply, or_else; rewrite H; split; reflexivity.
Qed.

Lemma botReply_string (response : AxiosResponse) (t : jsstring) :
  reply_content response = JSString t -> t <> [] ->
  botReply response = JSString t
  /\ call_includes (botReply response) FENCE = Normal (includes t FENCE).
Proof.
  intros H Ht; unfold botReply, or_else; rewrite H; simpl.
  rewrite (nonEmpty_true t Ht); split; reflexivity.
Qed.

(** A body without [choices], and no body at all, have no content. *)
Lemma no_choices_no_content (response : AxiosResponse) :
  (nullish (data response) = true
   \/ exists props, data response = JSObject props
                    /\ own_property props (js "choices") = JSUndefined) ->
  reply_content response = JSUndefined.
Proof.
  unfold reply_content; intros [H | [props [-> H]]].
  - destruct (data response); try discriminate; reflexivity.
  - unfold opt_get at 4; cbn [get key_string]; rewrite H; reflexivity.
Qed.

Lemma completion_body_content (status : Z) (c : JSValue) :
  reply_content {| status := status; data := completion_body c |} = c.
Proof.
  unfold reply_content, completion_body; simpl.
  destruct c; try reflexivity.
Qed.

(** C4 as the claim states it fails: the content field is present and is
    the empty string, and the text of the appended message is not that
    string. *)
Lemma C4_counterexample :
  let response := {| status := 200; data := completion_body (JSString []) |} in
  reply_content response = JSString []
  /\ exists s' m,
       sendMessage_resume (at_ 2000) (at_ 2001) (Fulfilled response) busy
       = (Normal tt, s')
       /\ messages s' = messages busy ++ [m]
       /\ text m <> reply_content response.
Proof.
  cbv zeta; split; [reflexivity|].
  eexists; eexists; split; [reflexivity|]; split; [reflexivity|].
  discriminate.
Qed.

(** C4 (amended).  In [AdvancedChatbot], for every fulfilled response the
    exchange completes normally with one bot message appended.  Its text
    is [choices[0].message.content] when that is a non-empty string; it
    is the fixed reply, with type default, when the content is absent or
    otherwise falsy, as it is when the body has no [choices] or is
    missing altogether. *)
Theorem C4_reply_text :
  forall (r r' : Readings) (response : AxiosResponse) (s : State),
    exists s' m,
      sendMessage_resume r r' (Fulfilled response) s = (Normal tt, s')
      /\ messages s' = messages s ++ [m]
      /\ user m = Bot
      /\ (forall t, reply_content response = JSString t -> t <> [] ->
            text m = JSString t /\ type m <> Some type_error)
      /\ (truthy (reply_content response) = false ->
            text m = JSString NO_REPLY /\ type m = Some type_default)
      /\ ((nullish (data response) = true
           \/ exists props, data response = JSObject props
                            /\ own_property props (js "choices") = JSUndefined) ->
          truthy (reply_content response) = false).
Proof.
  intros r r' response s; rewrite resume_fulfilled.
  eexists; eexists; split; [reflexivity|]; split; [reflexivity|].
  split; [destruct (call_includes (botReply response) FENCE); reflexivity|].
  split; [|split].
  - intros t Hc Ht.
    destruct (botReply_string response t Hc Ht) as [Hb Hi].
    rewrite Hi, Hb; simpl; split; [reflexivity|].
    destruct (includes t FENCE); discriminate.
  - intros Hf.
    destruct (botReply_falsy response Hf) as [Hb Hi].
    rewrite Hi, Hb; split; reflexivity.
  - intros H; now rewrite (no_choices_no_content response H).
Qed.

(** C9.  When the content is present and is the empty string (or any
    other falsy value) the appended bot message carries the fixed reply,
    not the empty string. *)
Theorem C9_empty_content_gives_fixed_reply :
  forall (r r' : Readings) (response : AxiosResponse) (s : State),
    reply_content response = JSString []
    \/ truthy (reply_content response) = false ->
    exists s' m,
      sendMessage_resume r r' (Fulfilled response) s = (Normal tt, s')
      /\ messages s' = messages s ++ [m]
      /\ user m = Bot
      /\ text m = JSString NO_REPLY
      /\ text m <> JSString [].
Proof.
  intros r r' response s H.
  assert (Hf : truthy (reply_content response) = false).
  { destruct H as [-> | H]; [reflexivity | exact H]. }
  destruct (botReply_falsy response Hf) as [Hb Hi].
  rewrite resume_fulfilled, Hi, Hb.
  eexists; eexists; split; [reflexivity|]; simpl; repeat split.
  discriminate.
Qed.

Lemma C9_empty_content_gives_fixed_reply_witness :
  let response := {| status := 200; data := completion_body (JSString []) |} in
  (reply_content response = JSString []
   \/ truthy (reply_content response) = false)
  /\ exists s' m,
      sendMessage_resume (at_ 2000) (at_ 2001) (Fulfilled response) busy
      = (Normal tt, s')
      /\ messages s' = messages busy ++ [m]
      /\ user m = Bot
      /\ text m = JSString NO_REPLY
      /\ text m <> JSString [].
Proof.
  cbv zeta.
  assert (H : reply_content {| status := 200; data := completion_body (JSString []) |}
              = JSString []
              \/ truthy (reply_content
                   {| status := 200; data := completion_body (JSString []) |}) = false)
    by (left; reflexivity).
  split; [exact H|].
  exact (C9_empty_content_gives_fixed_reply (at_ 2000) (at_ 2001) _ busy H).
Defined.

(** *** The type of the reply *)

Lemma is_string_spec (p : jsstring) (v : JSValue) :
  is_string p v = true <-> v = JSString p.
Proof.
  destruct v; simpl; try (split; [discriminate | intros H; discriminate H]).
  rewrite eqb_eq; split; [intros -> | intros H; injection H as ->]; reflexivity.
Qed.

Lemma array_includes_spec (p : jsstring) (elems : list JSValue) :
  existsb (is_string p) elems = true <-> In (JSString p) elems.
Proof.
  rewrite existsb_exists; split.
  - intros [v [Hin Hv]]; apply is_string_spec in Hv; now subst.
  - intros H; exists (JSString p); split; [exact H | now apply is_string_spec].
Qed.

(** C10.  On the success path exactly one message is appended, written
    by the bot, and its text is the reply: the content of the response,
    or the fixed reply when that is falsy.  Its type is code or default,
    never error.  When the reply is a string the type is code exactly
    when the reply contains three backquotes in a row, and default
    exactly when it does not.  (A reply that is an array, which the
    [includes] call also accepts, has type code exactly when one of its
    elements is that string.)  In particular, when the body of the
    response has the expected shape with a non-empty string as content,
    the text is that content and the type is code exactly when the
    content contains three backquotes in a row. *)
Theorem C10_reply_type_follows_fence :
  forall (r r' : Readings) (o : Outcome) (s : State),
    successful o ->
    exists response s' m,
      o = Fulfilled response
      /\ sendMessage_resume r r' o s = (Normal tt, s')
      /\ messages s' = messages s ++ [m]
      /\ user m = Bot
      /\ text m = botReply response
      /\ type m <> Some type_error
      /\ (type m = Some type_code \/ type m = Some type_default)
      /\ (forall t, text m = JSString t ->
            (type m = Some type_code <-> occurs_in FENCE t)
            /\ (type m = Some type_default <-> ~ occurs_in FENCE t))
      /\ (forall elems, text m = JSArray elems ->
            (type m = Some type_code <-> In (JSString FENCE) elems))
      /\ (forall t, data response = completion_body (JSString t) -> t <> [] ->
            text m = JSString t
            /\ (type m = Some type_code <-> occurs_in FENCE t)).
Proof.
  intros r r' o s Hok.
  destruct (resume_successful r r' o s Hok) as [response [fenced [Ho [Hc ->]]]].
  exists response; eexists; exists (botMessage r (botReply response) fenced).
  split; [exact Ho|].
  split; [reflexivity|]; split; [reflexivity|]; split; [reflexivity|].
  split; [reflexivity|].
  simpl; split; [destruct fenced; discriminate|].
  split; [destruct fenced; auto|]; split; [|split].
  - intros t Ht; rewrite Ht in Hc; simpl in Hc; injection Hc as Hc.
    rewrite <- includes_spec, Hc; destruct fenced; split; split;
      congruence.
  - intros elems He; rewrite He in Hc; simpl in Hc; injection Hc as Hc.
    rewrite <- array_includes_spec, Hc; destruct fenced; split; congruence.
  - intros t Hd Ht.
    assert (Hrc : reply_content response = JSString t).
    { destruct response as [st d]; simpl in Hd; subst d.
      apply completion_body_content. }
    destruct (botReply_string response t Hrc Ht) as [Hb Hi].
    split; [exact Hb|].
    rewrite Hi in Hc; injection Hc as Hc.
    rewrite <- includes_spec, Hc; destruct fenced; split; congruence.
Qed.

(** A reply with a fenced block: the stored text is the reply and the
    stored type is code. *)
Lemma C10_reply_type_follows_fence_witness :
  let reply := js "run ```ls``` now" in
  let o := settle (ok (JSString reply)) in
  successful o
  /\ exists s' m,
      sendMessage_resume (at_ 2000) (at_ 2001) o busy = (Normal tt, s')
      /\ messages s' = messages busy ++ [m]
      /\ user m = Bot
      /\ text m = JSString reply
      /\ occurs_in FENCE reply
      /\ type m = Some type_code.
Proof.
  cbv zeta.
  assert (Hok : successful (settle (ok (JSString (js "run ```ls``` now"))))).
  { eexists; exists true; split; reflexivity. }
  split; [exact Hok|].
  destruct (C10_reply_type_follows_fence (at_ 2000) (at_ 2001) _ busy Hok)
    as [response [s' [m [Ho [Hr [Hm [Hu [Ht [_ [_ [Hs _]]]]]]]]]]].
  injection Ho as <-.
  assert (Hocc : occurs_in FENCE (js "run ```ls``` now")).
  { apply includes_spec; reflexivity. }
  exists s', m; split; [exact Hr|]; split; [exact Hm|]; split; [exact Hu|].
  split; [exact Ht|]; split; [exact Hocc|].
  exact (proj2 (proj1 (Hs _ Ht)) Hocc).
Defined.

(** *** Clearing the conversation *)

(** C7 as the claim states it fails: with a draft in the input and a
    reply awaited, the clear button empties the messages and leaves both
    the draft and [isLoading] as they were. *)
Lemma C7_counterexample :
  messages (clearChat busy) = []
  /\ isLoading busy = true /\ isLoading (clearChat busy) <> false
  /\ input busy = js "draft" /\ input (clearChat busy) <> [].
Proof. repeat split; discriminate. Qed.

(** C7 (amended).  In every state the clear button succeeds and leaves an
    empty message sequence; it changes nothing else: [isLoading], the
    input, the configuration and the requests in flight stay as they
    were. *)
Theorem C7_clear_empties_messages_only :
  forall (view : State -> View) (env : ImportMetaEnv) (w : World),
    let w' := step view env w ClickClear in
    messages (ui w') = []
    /\ isLoading (ui w') = isLoading (ui w)
    /\ input (ui w') = input (ui w)
    /\ isTyping (ui w') = isTyping (ui w)
    /\ config (ui w') = config (ui w)
    /\ pending w' = pending w.
Proof. intros view env w; cbv zeta; repeat split. Qed.

(** *** Switching the model *)

Lemma getApiKey_credentialKey (env : ImportMetaEnv) (model : jsstring) :
  getApiKey env model = match credentialKey model with
                        | Some k => env k
                        | None => Some []
                        end.
Proof.
  unfold getApiKey, credentialKey.
  destruct (JsString.eqb model (value Gemini)); [reflexivity|].
  destruct (JsString.eqb model (value DeepSeek)); reflexivity.
Qed.

(** Only the two listed models have a credential. *)
Lemma credentialKey_none (model : jsstring) :
  credentialKey model = None <-> forall m, model <> value m.
Proof.
  unfold credentialKey; split.
  - destruct (JsString.eqb model (value Gemini)) eqn:E1; [discriminate|].
    destruct (JsString.eqb model (value DeepSeek)) eqn:E2; [discriminate|].
    apply eqb_neq in E1, E2; intros _ [|]; assumption.
  - intros H.
    destruct (JsString.eqb model (value Gemini)) eqn:E1;
      [apply eqb_eq in E1; now destruct (H Gemini)|].
    destruct (JsString.eqb model (value DeepSeek)) eqn:E2;
      [apply eqb_eq in E2; now destruct (H DeepSeek)|].
    reflexivity.
Qed.

(** C8.  The two listed models read the credential under two different
    names of the environment.  After the selector is set to one of them
    the next request is authorised with the value under that model's
    name and asks for that model, and setting the selector leaves the
    messages as they were.  A model outside the list gets the empty
    credential. *)
Theorem C8_model_selects_credential :
  forall (env : ImportMetaEnv) (m1 m2 : ModelProvider) (r : Readings) (s : State),
    m1 <> m2 ->
    model (config s) = value m1 ->
    nonEmpty (trim (input s)) = true ->
    (exists k1 k2,
        credentialKey (value m1) = Some k1
        /\ credentialKey (value m2) = Some k2
        /\ k1 <> k2
        /\ getApiKey env (value m1) = env k1
        /\ getApiKey env (value m2) = env k2
        /\ exists s' request,
             sendMessage env r (selectModel (value m2) s) = (s', Awaiting request)
             /\ Authorization (api request) = js "Bearer " ++ interpolate (env k2)
             /\ body_model (body request) = value m2)
    /\ messages (selectModel (value m2) s) = messages s
    /\ (forall v, (forall m, v <> value m) -> getApiKey env v = Some []).
Proof.
  intros env m1 m2 r s Hne Hm Hin; split; [|split].
  - assert (Hin' : nonEmpty (trim (input (selectModel (value m2) s))) = true)
      by exact Hin.
    destruct (sendMessage_awaits env r _ Hin') as [request [E [Hapi [Hmodel _]]]].
    destruct m1, m2; try contradiction.
    + exists (js "VITE_GEMINI_API_KEY"), (js "VITE_DEEPSEEKR1_API_KEY").
      repeat (split; [reflexivity || discriminate|]).
      eexists; exists request; split; [exact E|].
      rewrite Hapi, Hmodel; split; reflexivity.
    + exists (js "VITE_DEEPSEEKR1_API_KEY"), (js "VITE_GEMINI_API_KEY").
      repeat (split; [reflexivity || discriminate|]).
      eexists; exists request; split; [exact E|].
      rewrite Hapi, Hmodel; split; reflexivity.
  - reflexivity.
  - intros v Hv; rewrite getApiKey_credentialKey.
    now rewrite (proj2 (credentialKey_none v) Hv).
Qed.

Lemma C8_model_selects_credential_witness :
  let s := typed (js "hi") initial in
  (Gemini <> DeepSeek
   /\ model (config s) = value Gemini
   /\ nonEmpty (trim (input s)) = true)
  /\ (exists k1 k2,
        credentialKey (value Gemini) = Some k1
        /\ credentialKey (value DeepSeek) = Some k2
        /\ k1 <> k2
        /\ getApiKey secrets (value Gemini) = secrets k1
        /\ getApiKey secrets (value DeepSeek) = secrets k2
        /\ exists s' request,
             sendMessage secrets (at_ 1000) (selectModel (value DeepSeek) s)
             = (s', Awaiting request)
             /\ Authorization (api request) = js "Bearer " ++ interpolate (secrets k2)
             /\ body_model (body request) = value DeepSeek)
  /\ messages (selectModel (value DeepSeek) s) = messages s
  /\ (forall v, (forall m, v <> value m) -> getApiKey secrets v = Some []).
Proof.
  cbv zeta.
  assert (Hne : Gemini <> DeepSeek) by discriminate.
  assert (Hm : model (config (typed (js "hi") initial)) = value Gemini) by reflexivity.
  assert (Hin : nonEmpty (trim (input (typed (js "hi") initial))) = true) by reflexivity.
  split; [repeat split; assumption|].
  exact (C8_model_selects_credential secrets Gemini DeepSeek (at_ 1000) _ Hne Hm Hin).
Defined.

Example switch_changes_authorization :
  exists s1 q1 s2 q2,
    sendMessage secrets (at_ 1000) (typed (js "hi") initial) = (s1, Awaiting q1)
    /\ sendMessage secrets (at_ 1000)
         (selectModel (value DeepSeek) (typed (js "hi") initial)) = (s2, Awaiting q2)
    /\ Authorization (api q1) = js "Bearer g-secret"
    /\ Authorization (api q2) = js "Bearer d-secret".
Proof. repeat eexists. Qed.

End Claims.

(* ================================================================== *)
(** ** Chatbot *)

Section ChatbotFacts.

Variable env : ImportMetaEnv.

Lemma chatbot_sendMessage_cases (s : Chatbot.State) :
  Chatbot.sendMessage env s = (s, Chatbot.Returned)
  \/ exists s' request,
       Chatbot.sendMessage env s = (s', Chatbot.Awaiting request)
       /\ Chatbot.isLoading s' = true.
Proof.
  unfold Chatbot.sendMessage.
  destruct (nonEmpty (trim (Chatbot.input s))); simpl.
  - right; eexists; eexists; split; reflexivity.
  - now left.
Qed.

Lemma chatbot_launch_idle (w : Chatbot.World) (res : Chatbot.State * Chatbot.Suspended) :
  chatbot_one_in_flight w -> Chatbot.isLoading (Chatbot.ui w) = false ->
  (res = (Chatbot.ui w, Chatbot.Returned)
   \/ exists s' request,
        res = (s', Chatbot.Awaiting request) /\ Chatbot.isLoading s' = true) ->
  chatbot_one_in_flight (Chatbot.launch w res).
Proof.
  intros [Hlen Hidle] Hl [-> | [s' [request [-> Hs']]]];
    unfold chatbot_one_in_flight; simpl.
  - split; [exact Hlen | intros _; now apply Hidle].
  - rewrite (Hidle Hl); simpl; split; [lia | congruence].
Qed.

Lemma chatbot_step_one_in_flight (w : Chatbot.World) (e : Chatbot.Event) :
  chatbot_one_in_flight w -> chatbot_one_in_flight (Chatbot.step env w e).
Proof.
  intros Inv; destruct e; simpl.
  - destruct (Chatbot.isLoading (Chatbot.ui w)); exact Inv.
  - destruct (Chatbot.isLoading (Chatbot.ui w)) eqn:Hl; [exact Inv|].
    apply chatbot_launch_idle; auto.
    unfold Chatbot.handleKeyPress.
    destruct (JsString.eqb key (js "Enter") && negb shiftKey);
      [apply chatbot_sendMessage_cases | now left].
  - destruct (Chatbot.isLoading (Chatbot.ui w)) eqn:Hl; [exact Inv|].
    apply chatbot_launch_idle; auto using chatbot_sendMessage_cases.
  - destruct (nth_error (Chatbot.pending w) i) as [request|] eqn:Hn; [|exact Inv].
    destruct Inv as [Hlen _]; unfold chatbot_one_in_flight; simpl.
    rewrite (remove_nth_single _ _ _ Hlen Hn); split; [simpl; lia|].
    intros _; reflexivity.
Qed.

(** X24.  [Chatbot], whose input and button are both disabled while a
    reply is awaited, never has two requests in flight. *)
Theorem chatbot_reachable_one_in_flight (es : list Chatbot.Event) :
  chatbot_one_in_flight (Chatbot.run env Chatbot.start es).
Proof.
  unfold Chatbot.run.
  assert (H : forall w, chatbot_one_in_flight w ->
                        chatbot_one_in_flight (fold_left (Chatbot.step env) es w)).
  { induction es as [|e es' IH]; intros w Inv; simpl; [exact Inv|].
    apply IH, chatbot_step_one_in_flight, Inv. }
  apply H; split; simpl; [lia | reflexivity].
Qed.

(** In [Chatbot] only the first link of the chain is optional: a body
    that is there but has no [choices] makes the [try] block throw, and
    the exchange ends on the error path. *)
Lemma chatbot_no_choices_takes_error_path
  (status : Z) (props : list (jsstring * JSValue)) (s : Chatbot.State) :
  own_property props (js "choices") = JSUndefined ->
  Chatbot.botReply {| status := status; data := JSObject props |} = Throw TypeError
  /\ Chatbot.sendMessage_resume
       (Fulfilled {| status := status; data := JSObject props |}) s
     = (Normal tt,
        Chatbot.setIsLoading false
          (Chatbot.setMessages (fun prev => prev ++
             [{| Chatbot.user := Chatbot.BOT;
                 Chatbot.text := JSString Chatbot.ERROR_REPLY |}]) s)).
Proof.
  intros H.
  assert (E : Chatbot.botReply {| status := status; data := JSObject props |}
              = Throw TypeError).
  { unfold Chatbot.botReply, Chatbot.reply_content; simpl; rewrite H; reflexivity. }
  split; [exact E|].
  unfold Chatbot.sendMessage_resume, try_catch_finally, Chatbot.try_block.
  rewrite E; reflexivity.
Qed.

(** With the expected body [Chatbot] appends the content, or the fixed
    reply when the content is falsy. *)
Lemma chatbot_reply_text (status : Z) (c : JSValue) (s : Chatbot.State) :
  Chatbot.sendMessage_resume
    (Fulfilled {| status := status; data := completion_body c |}) s
  = (Normal tt,
     Chatbot.setIsLoading false
       (Chatbot.setMessages (fun prev => prev ++
          [{| Chatbot.user := Chatbot.BOT;
              Chatbot.text := or_else c (JSString Chatbot.NO_REPLY) |}]) s)).
Proof. reflexivity. Qed.

End ChatbotFacts.

(* ================================================================== *)
(** ** Scenarios *)

Section Scenarios.

Import AdvancedChatbot.

(** A reply ["Hello"] is appended as it is, with type default. *)
Example reply_hello :
  sendMessage_resume (at_ 2000) (at_ 2001) (settle (ok (JSString (js "Hello")))) busy
  = (Normal tt, finish (botMessage (at_ 2000) (JSString (js "Hello")) false) busy).
Proof. reflexivity. Qed.

(** A body without [choices] gives the fixed reply. *)
Example reply_without_choices :
  sendMessage_resume (at_ 2000) (at_ 2001)
    (settle (Responded {| status := 200; data := JSObject [(js "id", JSString (js "x"))] |}))
    busy
  = (Normal tt, finish (botMessage (at_ 2000) (JSString NO_REPLY) false) busy).
Proof. reflexivity. Qed.

(** A content that is a number has no [includes]: the [try] block
    throws, the [catch] clause appends the error message, and the flag is
    released all the same. *)
Example reply_number :
  sendMessage_resume (at_ 2000) (at_ 2001)
    (settle (ok (JSNumber (S754_finite false 5 0)))) busy
  = (Normal tt, finish (errorMessage (at_ 2001)) busy).
Proof. reflexivity. Qed.

(** A timeout ends with an error message and [isLoading] false. *)
Example reply_timeout :
  let s' := snd (sendMessage_resume (at_ 2000) (at_ 2001) (settle TimedOut) busy) in
  isLoading busy = true /\ isLoading s' = false
  /\ map type (messages s') = [None; Some type_default; Some type_error].
Proof. repeat split. Qed.

(** A status of 500 is a failure although the body has the expected
    shape. *)
Example reply_status_500 :
  sendMessage_resume (at_ 2000) (at_ 2001)
    (settle (Responded {| status := 500;
                          data := completion_body (JSString (js "Hello")) |})) busy
  = (Normal tt, finish (errorMessage (at_ 2001)) busy).
Proof. reflexivity. Qed.

(** Clearing while a reply is awaited: the reply is appended to the
    emptied conversation. *)
Example clear_then_reply :
  let w := run render no_env start
             [Change (js "hi"); ClickSend (at_ 1000); ClickClear;
              Settles 0 (ok (JSString (js "Hello"))) (at_ 2000) (at_ 2001)] in
  messages (ui w) = [botMessage (at_ 2000) (JSString (js "Hello")) false]
  /\ isLoading (ui w) = false /\ pending w = [].
Proof. repeat split. Qed.

End Scenarios.

(* ================================================================== *)
(** * Further properties *)

(** ** Trimming and splitting *)

Section TrimSplit.

(** [trim] cuts a blank prefix and a blank suffix off. *)
Lemma trim_decompose (s : jsstring) :
  exists pre suf, blank pre /\ blank suf /\ s = pre ++ trim s ++ suf.
Proof.
  destruct (trimStart_split s) as [pre [Hpre Hs]].
  destruct (trimStart_split (rev (trimStart s))) as [fus [Hfus Hr]].
  exists pre, (rev fus); split; [exact Hpre|]; split; [now apply blank_rev|].
  unfold trim, trimEnd.
  rewrite <- rev_app_distr, <- Hr, rev_involutive; exact Hs.
Qed.

Lemma trimStart_first (s : jsstring) (c : N) (r : jsstring) :
  trimStart s = c :: r -> isWhiteSpace c = false.
Proof.
  induction s as [|x s IH]; simpl; [discriminate|].
  destruct (isWhiteSpace x) eqn:Hx; [exact IH|].
  intros E; injection E as -> _; exact Hx.
Qed.

Lemma trimStart_fixed (s : jsstring) :
  (forall c r, s = c :: r -> isWhiteSpace c = false) -> trimStart s = s.
Proof.
  destruct s as [|c r]; simpl; [reflexivity|].
  intros H; now rewrite (H c r eq_refl).
Qed.

(** A suffix of a string that starts with no white space: dropping white
    space at its end leaves its start alone. *)
Lemma trimStart_rev_first (s : jsstring) (c : N) (r : jsstring) :
  isWhiteSpace c = false ->
  forall t, rev (trimStart (rev (c :: r))) = t -> exists r', t = c :: r'.
Proof.
  intros Hc t <-.
  destruct (trimStart_split (rev (c :: r))) as [pre [Hpre E]].
  apply (f_equal (@rev N)) in E; rewrite rev_involutive, rev_app_distr in E.
  destruct (rev (trimStart (rev (c :: r)))) as [|x y] eqn:Ht.
  - simpl in E.
    assert (Hb : blank (c :: r)) by (rewrite E; now apply blank_rev).
    inversion Hb; congruence.
  - simpl in E; injection E as <- _; now exists y.
Qed.

Lemma trim_trimmed (s : jsstring) : trimmed (trim s).
Proof.
  unfold trimmed, trim, trimEnd; split.
  - intros c r E.
    destruct (trimStart s) as [|x y] eqn:Hs; [discriminate E|].
    pose proof (trimStart_first s x y Hs) as Hx.
    destruct (trimStart_rev_first s x y Hx _ eq_refl) as [r' E'].
    rewrite E' in E; injection E as <- _; exact Hx.
  - intros c r E.
    apply (f_equal (@rev N)) in E.
    rewrite rev_involutive, rev_app_distr in E; simpl in E.
    exact (trimStart_first _ _ _ E).
Qed.

Lemma trimmed_trim (t : jsstring) : trimmed t -> trim t = t.
Proof.
  intros [Hfirst Hlast]; unfold trim, trimEnd.
  rewrite (trimStart_fixed t Hfirst).
  rewrite trimStart_fixed; [apply rev_involutive|].
  intros c r E; apply (Hlast c (rev r)).
  rewrite <- (rev_involutive t), E; reflexivity.
Qed.

Lemma trim_idempotent (s : jsstring) : trim (trim s) = trim s.
Proof. apply trimmed_trim, trim_trimmed. Qed.

Lemma occurs_in_nil (sep : jsstring) : sep <> [] -> ~ occurs_in sep [].
Proof.
  intros H [b [a E]]; destruct b; [destruct sep; [now apply H | discriminate] | discriminate].
Qed.

Lemma occurs_in_part (sep a b c : jsstring) :
  occurs_in sep b -> occurs_in sep (a ++ b ++ c).
Proof.
  intros [x [y ->]]; exists (a ++ x), (y ++ c).
  now rewrite <- !app_assoc.
Qed.

Lemma startsWith_skipn (s sep : jsstring) :
  startsWith s sep = true -> s = sep ++ skipn (List.length sep) s.
Proof.
  intros H; apply startsWith_spec in H as [after ->].
  now rewrite skipn_app, skipn_all, Nat.sub_diag.
Qed.

Lemma breakOn_some (sep s before after : jsstring) :
  breakOn sep s = Some (before, after) -> s = before ++ sep ++ after.
Proof.
  revert before; induction s as [|c r IH]; intros before; cbn [breakOn].
  - destruct (startsWith [] sep) eqn:E; [|discriminate].
    intros H; injection H as <- <-; exact (startsWith_skipn [] sep E).
  - destruct (startsWith (c :: r) sep) eqn:E.
    + intros H; injection H as <- <-; exact (startsWith_skipn (c :: r) sep E).
    + destruct (breakOn sep r) as [[b a]|]; [|discriminate].
      intros H; injection H as <- <-; cbn [app]; f_equal; now apply IH.
Qed.

Lemma breakOn_none (sep s : jsstring) :
  breakOn sep s = None <-> includes s sep = false.
Proof.
  induction s as [|c r IH]; cbn [breakOn includes].
  - destruct (startsWith [] sep); simpl; split; congruence.
  - destruct (startsWith (c :: r) sep); simpl; [split; discriminate|].
    rewrite <- IH; destruct (breakOn sep r) as [[b a]|]; split; congruence.
Qed.

(** What is before the first occurrence holds none. *)
Lemma breakOn_before (sep s before after : jsstring) :
  sep <> [] -> breakOn sep s = Some (before, after) -> ~ occurs_in sep before.
Proof.
  intros Hsep; revert before; induction s as [|c r IH]; intros before; cbn [breakOn].
  - destruct (startsWith [] sep); [|discriminate].
    intros H; injection H as <- _; now apply occurs_in_nil.
  - destruct (startsWith (c :: r) sep) eqn:E.
    + intros H; injection H as <- _; now apply occurs_in_nil.
    + destruct (breakOn sep r) as [[b a]|] eqn:Hb; [|discriminate].
      intros H; injection H as <- <-.
      intros [x [y Hxy]]; destruct x as [|x0 x]; simpl in Hxy.
      * pose proof (breakOn_some _ _ _ _ Hb) as Hr.
        assert (Hs : startsWith (c :: r) sep = true).
        { apply startsWith_spec; exists (y ++ sep ++ a).
          rewrite Hr, app_comm_cons, Hxy, <- app_assoc; reflexivity. }
        congruence.
      * injection Hxy as _ Hxy; apply (IH b eq_refl); now exists x, y.
Qed.

Lemma breakOn_shorter (sep s before after : jsstring) :
  sep <> [] -> breakOn sep s = Some (before, after) ->
  (List.length after < List.length s)%nat.
Proof.
  intros Hsep H; rewrite (breakOn_some _ _ _ _ H), !length_app.
  destruct sep; [contradiction | simpl; lia].
Qed.

Lemma join_cons (part : jsstring) (rest : list jsstring) (sep : jsstring) :
  rest <> [] -> join (part :: rest) sep = part ++ sep ++ join rest sep.
Proof. destruct rest; [contradiction | reflexivity]. Qed.

Lemma split_upto_nonempty (n : nat) (sep s : jsstring) : split_upto n sep s <> [].
Proof.
  destruct n; simpl; [discriminate|].
  destruct (breakOn sep s) as [[b a]|]; discriminate.
Qed.

Lemma join_split_upto (n : nat) (sep s : jsstring) :
  join (split_upto n sep s) sep = s.
Proof.
  revert s; induction n as [|n IH]; intros s; simpl; [reflexivity|].
  destruct (breakOn sep s) as [[b a]|] eqn:E; [|reflexivity].
  rewrite join_cons by apply split_upto_nonempty.
  rewrite IH; symmetry; now apply breakOn_some.
Qed.

Lemma split_upto_free (sep : jsstring) (n : nat) :
  sep <> [] ->
  forall s, (List.length s <= n)%nat ->
            Forall (fun part => ~ occurs_in sep part) (split_upto n sep s).
Proof.
  intros Hsep; induction n as [|n IH]; intros s Hlen; simpl.
  - destruct s; [|simpl in Hlen; lia].
    constructor; [now apply occurs_in_nil | constructor].
  - destruct (breakOn sep s) as [[b a]|] eqn:E.
    + constructor; [exact (breakOn_before _ _ _ _ Hsep E)|].
      apply IH; pose proof (breakOn_shorter _ _ _ _ Hsep E); lia.
    + constructor; [|constructor].
      apply includes_false, breakOn_none, E.
Qed.

End TrimSplit.

(** ** formatMessage *)

Section Formatting.

Import AdvancedChatbot.

Lemma FENCE_nonempty : FENCE <> [].
Proof. discriminate. Qed.

Lemma join_chars (s : jsstring) : join (map (fun c => [c]) s) [] = s.
Proof.
  induction s as [|c [|d r] IH]; try reflexivity.
  change (join (map (fun c => [c]) (c :: d :: r)) [])
    with ([c] ++ [] ++ join (map (fun c => [c]) (d :: r)) []).
  now rewrite IH.
Qed.

(** X1.  Joining the pieces of [split] with the separator gives the
    string back, for every string and every separator. *)
Theorem split_join_round_trip :
  forall s sep : jsstring, join (split s sep) sep = s.
Proof.
  intros s [|c sep]; simpl; [apply join_chars | apply join_split_upto].
Qed.

Lemma split_free (s sep : jsstring) :
  sep <> [] -> Forall (fun part => ~ occurs_in sep part) (split s sep).
Proof.
  intros H; destruct sep as [|c sep]; [contradiction|].
  unfold split; apply split_upto_free; [exact H | lia].
Qed.

Lemma trim_free (sep s : jsstring) : ~ occurs_in sep s -> ~ occurs_in sep (trim s).
Proof.
  intros H Ht; apply H.
  destruct (trim_decompose s) as [pre [suf [_ [_ E]]]].
  rewrite E; now apply occurs_in_part.
Qed.

Lemma map_index_Forall {A B} (P : A -> Prop) (Q : B -> Prop) (f : A -> nat -> B)
  (parts : list A) :
  (forall part i, P part -> Q (f part i)) ->
  Forall P parts -> forall i, Forall Q (map_index f i parts).
Proof.
  intros Hf H; induction H as [|part rest Hp _ IH]; intros i; simpl; constructor; auto.
Qed.

Lemma formatMessage_string (t : jsstring) :
  formatMessage (JSString t)
  = Normal (if includes t FENCE
            then Elements (map_index
                   (fun part index =>
                      if Nat.eqb (index mod 2) 1 then SyntaxHighlighter (trim part)
                      else paragraph part) 0%nat (split t FENCE))
            else Unformatted (JSString t)).
Proof.
  unfold formatMessage; simpl; destruct (includes t FENCE); reflexivity.
Qed.

(** X2.  For a string [formatMessage] always returns; it returns the
    string itself exactly when the string holds no fence; and nothing it
    returns shows a fence: no paragraph and no highlighted block
    contains three backquotes in a row. *)
Theorem formatMessage_shows_no_fence :
  forall t : jsstring,
    exists f,
      formatMessage (JSString t) = Normal f
      /\ (f = Unformatted (JSString t) <-> ~ occurs_in FENCE t)
      /\ match f with
         | Elements parts =>
           Forall (fun e => ~ occurs_in FENCE (children_of e)) parts
         | Unformatted v => v = JSString t
         end.
Proof.
  intros t; rewrite formatMessage_string.
  destruct (includes t FENCE) eqn:E; eexists; split; try reflexivity.
  - split.
    + split; [discriminate|].
      intros H; apply includes_false in H; congruence.
    + apply (map_index_Forall (fun part => ~ occurs_in FENCE part));
        [|apply split_free, FENCE_nonempty].
      intros part i Hp; destruct (Nat.eqb (i mod 2) 1); simpl;
        [now apply trim_free | exact Hp].
  - split; [|reflexivity].
    split; [intros _; now apply includes_false | reflexivity].
Qed.

Lemma split_upto_single (n : nat) (sep s : jsstring) :
  ~ occurs_in sep s -> split_upto n sep s = [s].
Proof.
  intros H; destruct n; simpl; [reflexivity|].
  apply includes_false, breakOn_none in H; now rewrite H.
Qed.

Lemma split_first (t sep : jsstring) :
  sep <> [] -> occurs_in sep t ->
  exists before after,
    t = before ++ sep ++ after
    /\ ~ occurs_in sep before
    /\ split t sep = before :: split_upto (List.length t - 1) sep after.
Proof.
  intros Hsep Hocc; destruct sep as [|c sep]; [contradiction|].
  destruct (breakOn (c :: sep) t) as [[b a]|] eqn:E.
  - exists b, a; split; [now apply breakOn_some|].
    split; [exact (breakOn_before _ _ _ _ Hsep E)|].
    unfold split; destruct t as [|x t].
    + destruct Hocc as [u [v Huv]]; destruct u; discriminate.
    + cbn [List.length split_upto]; rewrite E.
      now replace (S (List.length t) - 1)%nat with (List.length t) by lia.
  - apply breakOn_none, includes_false in E; contradiction.
Qed.

Lemma split_upto_enough (sep : jsstring) :
  sep <> [] ->
  forall n m s, (List.length s <= n)%nat -> (List.length s <= m)%nat ->
                split_upto n sep s = split_upto m sep s.
Proof.
  intros Hsep; induction n as [|n IH]; intros m s Hn Hm.
  - destruct s; [|simpl in Hn; lia].
    now rewrite (split_upto_single m sep [] (occurs_in_nil sep Hsep)).
  - destruct m as [|m].
    + destruct s; [|simpl in Hm; lia].
      now rewrite (split_upto_single (S n) sep [] (occurs_in_nil sep Hsep)).
    + cbn [split_upto]; destruct (breakOn sep s) as [[b a]|] eqn:E; [|reflexivity].
      pose proof (breakOn_shorter _ _ _ _ Hsep E).
      f_equal; apply IH; lia.
Qed.

Lemma split_no_sep (s sep : jsstring) :
  sep <> [] -> ~ occurs_in sep s -> split s sep = [s].
Proof.
  intros Hsep H; destruct sep as [|c sep]; [contradiction|].
  unfold split; now apply split_upto_single.
Qed.

Lemma split_second (after sep : jsstring) (n : nat) :
  sep <> [] -> occurs_in sep after -> (List.length after <= n)%nat ->
  exists code rest,
    after = code ++ sep ++ rest
    /\ ~ occurs_in sep code
    /\ split_upto n sep after = code :: split rest sep.
Proof.
  intros Hsep Hocc Hn.
  destruct (breakOn sep after) as [[code rest]|] eqn:E.
  - exists code, rest; split; [now apply breakOn_some|].
    split; [exact (breakOn_before _ _ _ _ Hsep E)|].
    pose proof (breakOn_shorter _ _ _ _ Hsep E) as Hlt.
    destruct n as [|n]; [lia|]; cbn [split_upto]; rewrite E; f_equal.
    unfold split; destruct sep as [|c sep]; [contradiction|].
    apply split_upto_enough; [exact Hsep | lia | lia].
  - apply breakOn_none, includes_false in E; contradiction.
Qed.

Lemma map_index_parity {B} (f : jsstring -> nat -> B) (parts : list jsstring) :
  (forall part i, f part (S (S i)) = f part i) ->
  forall i, map_index f (S (S i)) parts = map_index f i parts.
Proof.
  intros Hf; induction parts as [|part rest IH]; intros i; simpl; [reflexivity|].
  now rewrite Hf, IH.
Qed.

Lemma element_parity (part : jsstring) (i : nat) :
  (if Nat.eqb (S (S i) mod 2) 1 then SyntaxHighlighter (trim part) else paragraph part)
  = (if Nat.eqb (i mod 2) 1 then SyntaxHighlighter (trim part) else paragraph part).
Proof.
  replace (S (S i)) with (i + 1 * 2)%nat by lia.
  now rewrite Nat.Div0.mod_add.
Qed.

(** X3.  When the text holds a fence, what is before the first fence is
    shown as it is in a paragraph and what follows the fence is
    highlighted.  When no second fence closes the block, all the rest of
    the text, trimmed, is the one highlighted block.  When a second fence
    closes it, the text between the two fences, trimmed, is the
    highlighted block, and what follows the second fence is shown after
    it as [formatMessage] shows that text alone: in one paragraph when it
    holds no fence. *)
Theorem formatMessage_first_fence :
  forall t : jsstring,
    occurs_in FENCE t ->
    exists before after,
      t = before ++ FENCE ++ after
      /\ ~ occurs_in FENCE before
      /\ (~ occurs_in FENCE after ->
          formatMessage (JSString t)
          = Normal (Elements [paragraph before; SyntaxHighlighter (trim after)]))
      /\ (occurs_in FENCE after ->
          exists code rest more,
            after = code ++ FENCE ++ rest
            /\ ~ occurs_in FENCE code
            /\ formatMessage (JSString t)
               = Normal (Elements
                   (paragraph before :: SyntaxHighlighter (trim code) :: more))
            /\ (occurs_in FENCE rest ->
                formatMessage (JSString rest) = Normal (Elements more))
            /\ (~ occurs_in FENCE rest -> more = [paragraph rest])).
Proof.
  intros t Hocc.
  destruct (split_first t FENCE FENCE_nonempty Hocc) as [b [a [Ht [Hb Hs]]]].
  exists b, a; split; [exact Ht|]; split; [exact Hb|].
  rewrite formatMessage_string, (proj2 (includes_spec t FENCE) Hocc), Hs.
  cbn [map_index]; split.
  - intros Ha; now rewrite (split_upto_single _ _ _ Ha).
  - intros Ha.
    assert (Hlen : (List.length a <= List.length t - 1)%nat).
    { assert (H3 : List.length FENCE = 3%nat) by reflexivity.
      rewrite Ht, !length_app, H3; lia. }
    destruct (split_second a FENCE _ FENCE_nonempty Ha Hlen)
      as [code [rest [Hcode [Hfree Hsplit]]]].
    exists code, rest; eexists; split; [exact Hcode|]; split; [exact Hfree|].
    rewrite Hsplit; cbn [map_index]; split; [reflexivity|].
    rewrite (map_index_parity _ _ element_parity 0%nat); split.
    + intros Hr.
      now rewrite formatMessage_string, (proj2 (includes_spec rest FENCE) Hr).
    + intros Hr; now rewrite (split_no_sep rest FENCE FENCE_nonempty Hr).
Qed.

Lemma formatMessage_first_fence_witness :
  let t := js "run ```ls -l``` and wait" in
  occurs_in FENCE t
  /\ exists before after,
      t = before ++ FENCE ++ after
      /\ ~ occurs_in FENCE before
      /\ (~ occurs_in FENCE after ->
          formatMessage (JSString t)
          = Normal (Elements [paragraph before; SyntaxHighlighter (trim after)]))
      /\ (occurs_in FENCE after ->
          exists code rest more,
            after = code ++ FENCE ++ rest
            /\ ~ occurs_in FENCE code
            /\ formatMessage (JSString t)
               = Normal (Elements
                   (paragraph before :: SyntaxHighlighter (trim code) :: more))
            /\ (occurs_in FENCE rest ->
                formatMessage (JSString rest) = Normal (Elements more))
            /\ (~ occurs_in FENCE rest -> more = [paragraph rest])).
Proof.
  cbv zeta.
  assert (H : occurs_in FENCE (js "run ```ls -l``` and wait")).
  { apply includes_spec; reflexivity. }
  split; [exact H|].
  exact (formatMessage_first_fence _ H).
Defined.

(** X4.  In the earlier revision, which imports no [SyntaxHighlighter],
    [formatMessage] of a string fails with that name undefined exactly
    when the string holds a fence; any other string is returned as it
    is. *)
Theorem formatMessage_earlier_fails_on_fence :
  forall t : jsstring,
    (occurs_in FENCE t ->
     formatMessage_earlier (JSString t) = inl (NotDefined (js "SyntaxHighlighter")))
    /\ (~ occurs_in FENCE t ->
        formatMessage_earlier (JSString t) = inr (Unformatted (JSString t))).
Proof.
  intros t; unfold formatMessage_earlier; cbn [call_includes]; split; intros H.
  - rewrite (proj2 (includes_spec t FENCE) H).
    destruct (split_first t FENCE FENCE_nonempty H) as [b [a [_ [_ ->]]]].
    pose proof (split_upto_nonempty (List.length t - 1) FENCE a) as Hne.
    destruct (split_upto (List.length t - 1) FENCE a); [contradiction | reflexivity].
  - now rewrite (proj2 (includes_false t FENCE) H).
Qed.

End Formatting.

(** ** The conversation over time *)

Section Invariants.

Import AdvancedChatbot.

Variable view : State -> View.
Variable env : ImportMetaEnv.

Lemma launch_effect (w : World) (e : Event) (r : Readings) :
  e = KeyPress (js "Enter") false r \/ e = ClickSend r ->
  Effect w e (launch w (sendMessage env r (ui w))).
Proof.
  intros He; destruct (nonEmpty (trim (input (ui w)))) eqn:Hin.
  - destruct (sendMessage_awaits env r (ui w) Hin) as [request [E _]].
    rewrite E; now apply (Submitted w e _ r request).
  - unfold sendMessage; rewrite Hin; now apply Quiet.
Qed.

Lemma botReply_truthy (response : AxiosResponse) : truthy (botReply response) = true.
Proof.
  unfold botReply, or_else.
  destruct (truthy (reply_content response)) eqn:E; [exact E | reflexivity].
Qed.

Lemma stored_errorMessage (r : Readings) : stored (errorMessage r).
Proof. split; [reflexivity | left; split; reflexivity]. Qed.

Lemma stored_userMessage (r : Readings) (s : jsstring) :
  nonEmpty (trim s) = true -> stored (userMessage r (trim s)).
Proof.
  intros H; split; [reflexivity|]; simpl; split; [reflexivity|].
  exists (trim s); split; [reflexivity|]; split; [|apply trim_trimmed].
  intros E; rewrite E in H; discriminate.
Qed.

Lemma resume_effect (r r' : Readings) (o : Outcome) (s : State) :
  exists m,
    snd (sendMessage_resume r r' o s) = finish m s /\ user m = Bot /\ stored m.
Proof.
  destruct o as [response|e].
  - rewrite resume_fulfilled.
    destruct (call_includes (botReply response) FENCE) as [fenced|t] eqn:E.
    + exists (botMessage r (botReply response) fenced).
      split; [reflexivity|]; split; [reflexivity|].
      split; [reflexivity|]; right; split; [apply botReply_truthy|].
      now exists fenced.
    + exists (errorMessage r'); repeat split; apply stored_errorMessage.
  - rewrite resume_rejected; exists (errorMessage r'); repeat split.
    apply stored_errorMessage.
Qed.

Lemma key_is_enter (key : jsstring) (shiftKey : bool) :
  JsString.eqb key (js "Enter") && negb shiftKey = true ->
  key = js "Enter" /\ shiftKey = false.
Proof.
  intros H; apply andb_true_iff in H as [Hk Hs].
  apply eqb_eq in Hk; destruct shiftKey; [discriminate | now split].
Qed.

(** Every event is of one of the four kinds. *)
Lemma step_effect (w : World) (e : Event) : Effect w e (step view env w e).
Proof.
  destruct e; simpl.
  - destruct (input_disabled (view (ui w))); now apply Quiet.
  - destruct (input_disabled (view (ui w))); [now apply Quiet|].
    unfold handleKeyPress.
    destruct (JsString.eqb key (js "Enter") && negb shiftKey) eqn:Hk;
      [|now apply Quiet].
    apply key_is_enter in Hk as [-> ->]; apply launch_effect; now left.
  - destruct (send_disabled (view (ui w))); [now apply Quiet|].
    apply launch_effect; now right.
  - now apply Cleared.
  - now apply Quiet.
  - now apply Quiet.
  - now apply Quiet.
  - destruct (picker_shown (view (ui w))); now apply Quiet.
  - destruct (nth_error (pending w) i) as [request|] eqn:Hn; [|now apply Quiet].
    destruct (resume_effect r r' (settle wire) (ui w)) as [m [E [Hu Hs]]].
    apply (Settled w _ _ i request m); simpl; try rewrite E; auto.
Qed.

Lemma run_invariant (P : World -> Prop) :
  (forall w e, P w -> P (step view env w e)) ->
  forall es w, P w -> P (run view env w es).
Proof.
  intros Hstep es; induction es as [|e es IH]; intros w Hw; simpl; auto.
Qed.

Lemma reachable_invariant (P : World -> Prop) :
  P start -> (forall w e, P w -> P (step view env w e)) ->
  forall w, reachable view env w -> P w.
Proof.
  intros H0 Hstep w [es <-]; now apply run_invariant.
Qed.

Lemma step_stored (w : World) (e : Event) :
  Forall stored (messages (ui w)) ->
  Forall stored (messages (ui (step view env w e))).
Proof.
  intros Hw.
  destruct (step_effect w e)
    as [Hm _ _ _|r q _ Hin Hm _ _ _|i q m _ Hm _ Hs _ _ _|_ Hm _ _ _];
    rewrite Hm; auto.
  - apply Forall_app; split; [exact Hw|].
    constructor; [now apply stored_userMessage | constructor].
  - apply Forall_app; split; [exact Hw | constructor; [exact Hs | constructor]].
Qed.

(** X5.  In every reachable state every message is as [sendMessage]
    built it: a message of the user holds a non-empty string with no
    white space at either end and has no type; a message of the bot is
    the error message or holds a truthy reply with the type its fences
    gave it; and no message has reactions. *)
Theorem reachable_messages_stored :
  forall w : World,
    reachable view env w -> Forall stored (messages (ui w)).
Proof.
  intros w Hw; revert w Hw.
  apply reachable_invariant; [constructor | exact step_stored].
Qed.

(** X6.  In every reachable state the typing indicator is shown exactly
    while a reply is awaited: [isTyping] equals [isLoading]. *)
Theorem reachable_isTyping_isLoading :
  forall w : World,
    reachable view env w -> isTyping (ui w) = isLoading (ui w).
Proof.
  apply reachable_invariant; [reflexivity|].
  intros w e Hw.
  destruct (step_effect w e)
    as [_ _ Hl Ht|r q _ _ _ _ Hl Ht|i q m _ _ _ _ _ Hl Ht|_ _ _ Hl Ht];
    congruence.
Qed.

(** X7.  No event but the clear button touches a message already in the
    conversation: after the event the messages are the messages before,
    followed by at most one new message. *)
Theorem messages_append_only :
  forall (w : World) (e : Event),
    e <> ClickClear ->
    exists added,
      messages (ui (step view env w e)) = messages (ui w) ++ added
      /\ (List.length added <= 1)%nat.
Proof.
  intros w e He.
  destruct (step_effect w e)
    as [Hm _ _ _|r q _ _ Hm _ _ _|i q m _ Hm _ _ _ _ _|Hc _ _ _ _].
  - exists []; rewrite Hm, app_nil_r; split; [reflexivity | simpl; lia].
  - eexists; split; [exact Hm | simpl; lia].
  - eexists; split; [exact Hm | simpl; lia].
  - contradiction.
Qed.

Lemma remove_nth_length {A} (i : nat) (l : list A) (x : A) :
  nth_error l i = Some x -> S (List.length (remove_nth i l)) = List.length l.
Proof.
  revert i; induction l as [|y l IH]; intros [|i]; simpl; try discriminate.
  - reflexivity.
  - intros H; now rewrite (IH i H).
Qed.

Lemma written_app (l : list Message) (m : Message) :
  written_by_You (l ++ [m])
  = (written_by_You l + if is_You m then 1 else 0)%nat
  /\ written_by_Bot (l ++ [m])
     = (written_by_Bot l + if is_Bot m then 1 else 0)%nat.
Proof.
  unfold written_by_You, written_by_Bot.
  rewrite !filter_app, !length_app; simpl.
  destruct (is_You m), (is_Bot m); split; reflexivity.
Qed.

Lemma step_balanced (w : World) (e : Event) :
  e <> ClickClear -> balanced w -> balanced (step view env w e).
Proof.
  unfold balanced; intros He Hb.
  destruct (step_effect w e)
    as [Hm Hp _ _|r q _ _ Hm Hp _ _|i q m Hn Hm Hu _ Hp _ _|Hc _ _ _ _].
  - now rewrite Hm, Hp.
  - rewrite Hm, Hp, length_app.
    destruct (written_app (messages (ui w)) (userMessage r (trim (input (ui w)))))
      as [-> ->]; simpl; lia.
  - rewrite Hm, Hp.
    destruct (written_app (messages (ui w)) m) as [-> ->].
    unfold is_You, is_Bot; rewrite Hu.
    pose proof (remove_nth_length _ _ _ Hn); lia.
  - contradiction.
Qed.

(** X8.  As long as the conversation is not cleared, every message of the
    user is answered exactly once or still waits for its answer: the
    messages of the user are as many as the messages of the bot and the
    requests in flight together. *)
Theorem conversation_balanced :
  forall es : list Event,
    ~ In ClickClear es -> balanced (run view env start es).
Proof.
  intros es.
  assert (H : forall w, ~ In ClickClear es -> balanced w -> balanced (run view env w es)).
  { induction es as [|e es IH]; intros w Hes Hw; simpl; [exact Hw|].
    apply IH.
    - intros Hin; apply Hes; now right.
    - apply step_balanced; [|exact Hw].
      intros ->; apply Hes; now left. }
  intros Hes; apply H; [exact Hes | reflexivity].
Qed.

(** X9.  The clear button cancels nothing: when a request in flight
    settles after the conversation was cleared, its reply (or the error
    message) becomes the only message of the conversation. *)
Theorem clear_does_not_cancel :
  forall (w : World) (i : nat) (request : Request)
         (wire : Wire) (r r' : Readings),
    nth_error (pending w) i = Some request ->
    let w' := step view env (step view env w ClickClear) (Settles i wire r r') in
    exists m,
      messages (ui w') = [m] /\ user m = Bot
      /\ isLoading (ui w') = false
      /\ pending w' = remove_nth i (pending w).
Proof.
  intros w i request wire r r' Hn; cbv zeta; simpl; rewrite Hn.
  destruct (resume_effect r r' (settle wire) (clearChat (ui w))) as [m [E [Hu _]]].
  exists m; simpl; rewrite E; repeat split; exact Hu.
Qed.

(** X10.  When one request settles the flag is released whatever else is
    in flight: [isLoading] is false afterwards, one message of the bot is
    appended, and the other requests are still waiting. *)
Theorem settle_releases_flag_for_all :
  forall (w : World) (i : nat) (request : Request)
         (wire : Wire) (r r' : Readings),
    nth_error (pending w) i = Some request ->
    let w' := step view env w (Settles i wire r r') in
    isLoading (ui w') = false
    /\ S (List.length (pending w')) = List.length (pending w)
    /\ exists m, messages (ui w') = messages (ui w) ++ [m] /\ user m = Bot.
Proof.
  intros w i request wire r r' Hn; cbv zeta; simpl; rewrite Hn.
  destruct (resume_effect r r' (settle wire) (ui w)) as [m [E [Hu _]]].
  simpl; rewrite E; split; [reflexivity|]; split.
  - exact (remove_nth_length _ _ _ Hn).
  - now exists m.
Qed.

End Invariants.

(** ** What is sent and when *)

Section Requests.

Import AdvancedChatbot.

Lemma formatMessage_array (elems : list JSValue) :
  formatMessage (JSArray elems)
  = if existsb (is_string FENCE) elems then Throw TypeError
    else Normal (Unformatted (JSArray elems)).
Proof.
  unfold formatMessage; cbn [call_includes bind].
  destruct (existsb (is_string FENCE) elems); reflexivity.
Qed.

(** X11.  Rendering a stored message: in every reachable state
    [formatMessage] throws on the text of a message exactly when that
    text is an array with the fence string among its elements, and
    returns on every other text. *)
Theorem reachable_messages_render :
  forall (view : State -> View) (env : ImportMetaEnv) (w : World) (m : Message),
    reachable view env w ->
    In m (messages (ui w)) ->
    (formatMessage (text m) = Throw TypeError
     <-> exists elems, text m = JSArray elems /\ In (JSString FENCE) elems)
    /\ ((exists f, formatMessage (text m) = Normal f)
        <-> ~ exists elems, text m = JSArray elems /\ In (JSString FENCE) elems).
Proof.
  intros view env w m Hw Hin.
  assert (Hs : Forall stored (messages (ui w))).
  { clear Hin; revert w Hw; apply reachable_invariant;
      [constructor | apply step_stored]. }
  rewrite Forall_forall in Hs; destruct (Hs m Hin) as [_ Hm].
  assert (Hstr : forall t, text m = JSString t ->
            (formatMessage (text m) = Throw TypeError
             <-> exists elems, text m = JSArray elems /\ In (JSString FENCE) elems)
            /\ ((exists f, formatMessage (text m) = Normal f)
                <-> ~ exists elems, text m = JSArray elems
                                   /\ In (JSString FENCE) elems)).
  { intros t ->; rewrite formatMessage_string; split; split.
    - discriminate.
    - intros [elems [H _]]; discriminate.
    - intros _ [elems [H _]]; discriminate.
    - intros _; eexists; reflexivity. }
  destruct (user m).
  - destruct Hm as [_ [t [Ht _]]]; now apply (Hstr t).
  - destruct Hm as [[_ Ht] | [_ [fenced [Hc _]]]]; [now apply (Hstr ERROR_REPLY)|].
    destruct (text m) as [| | | |t|elems|] eqn:Et; try discriminate;
      [now apply (Hstr t)|].
    rewrite formatMessage_array.
    destruct (existsb (is_string FENCE) elems) eqn:E.
    + apply array_includes_spec in E; split; split.
      * intros _; now exists elems.
      * reflexivity.
      * intros [f Hf]; discriminate.
      * intros H; destruct H; now exists elems.
    + assert (Hno : ~ In (JSString FENCE) elems).
      { intros H; apply array_includes_spec in H; congruence. }
      split; split.
      * discriminate.
      * intros [l [Hl Hfence]]; injection Hl as <-; contradiction.
      * intros _ [l [Hl Hfence]]; injection Hl as <-; contradiction.
      * intros _; eexists; reflexivity.
Qed.

(** X12.  The current revision issues a request exactly on Enter without
    Shift in the input, or on a click on the send button while no reply
    is awaited, each with a non-blank input; no other event, and neither
    of the two with a blank input, adds a request. *)
Theorem request_issued_iff_submits :
  forall (env : ImportMetaEnv) (w : World) (e : Event),
    (exists request, pending (step render env w e) = pending w ++ [request])
    <-> submits w e.
Proof.
  intros env w e; split.
  - intros [request Hp].
    assert (Hlen : List.length (pending (step render env w e))
                   = S (List.length (pending w)))
      by (rewrite Hp, length_app; simpl; lia).
    destruct (step_effect render env w e)
      as [_ Hq _ _|r q He Hin _ _ _ _|i q m Hn _ _ _ Hq _ _|_ _ Hq _ _].
    + rewrite Hq in Hlen; lia.
    + split; [exact Hin|].
      destruct He as [-> | ->]; [left; now exists r|].
      right; split; [|now exists r].
      simpl in Hlen; destruct (isLoading (ui w)); [simpl in Hlen; lia | reflexivity].
    + rewrite Hq in Hlen; pose proof (remove_nth_length _ _ _ Hn); lia.
    + rewrite Hq in Hlen; lia.
  - intros [Hin [[r ->] | [Hl [r ->]]]].
    + now apply enter_ignores_isLoading.
    + simpl; rewrite Hl, Hin; simpl.
      destruct (sendMessage_awaits env r (ui w) Hin) as [request [E _]].
      rewrite E; now exists request.
Qed.

(** X13.  What the user sees as their message is what is sent: with a
    non-blank input [sendMessage] appends a message whose text is the
    input without the white space around it, sends that same text as
    the one message of the request, and empties the input. *)
Theorem sent_text_is_trimmed_input :
  forall (env : ImportMetaEnv) (r : Readings) (s : State),
    nonEmpty (trim (input s)) = true ->
    exists s' request pre suf,
      sendMessage env r s = (s', Awaiting request)
      /\ messages s' = messages s ++ [userMessage r (trim (input s))]
      /\ body_messages (body request)
         = [{| role := js "user"; content := trim (input s) |}]
      /\ input s = pre ++ trim (input s) ++ suf
      /\ blank pre /\ blank suf /\ trimmed (trim (input s))
      /\ input s' = [].
Proof.
  intros env r s Hin.
  destruct (sendMessage_awaits env r s Hin) as [request [E [_ [_ Hb]]]].
  destruct (trim_decompose (input s)) as [pre [suf [Hpre [Hsuf Hs]]]].
  eexists; exists request, pre, suf; split; [exact E|].
  repeat split; auto; apply trim_trimmed.
Qed.

(** X14.  The request knows nothing of the conversation: two states with
    the same input and the same configuration send the same request,
    whatever messages they hold and whatever the clock reads. *)
Theorem request_ignores_history :
  forall (env : ImportMetaEnv) (r1 r2 : Readings) (s1 s2 : State),
    input s1 = input s2 ->
    config s1 = config s2 ->
    snd (sendMessage env r1 s1) = snd (sendMessage env r2 s2).
Proof.
  intros env r1 r2 s1 s2 Hi Hc; unfold sendMessage; rewrite Hi, Hc.
  destruct (nonEmpty (trim (input s2))); reflexivity.
Qed.

(** X15.  The credential is not checked before the request goes out: a
    non-blank input is sent in every environment; when the environment
    lacks the name the model reads, the request is authorised with the
    words [Bearer undefined], and for a model outside the list with
    [Bearer ] and nothing after it. *)
Theorem missing_credential_still_sends :
  forall (env : ImportMetaEnv) (r : Readings) (s : State),
    nonEmpty (trim (input s)) = true ->
    exists s' request,
      sendMessage env r s = (s', Awaiting request)
      /\ (forall k, credentialKey (model (config s)) = Some k -> env k = None ->
            Authorization (api request) = js "Bearer undefined")
      /\ (credentialKey (model (config s)) = None ->
            Authorization (api request) = js "Bearer ").
Proof.
  intros env r s Hin.
  destruct (sendMessage_awaits env r s Hin) as [request [E [Hapi _]]].
  eexists; exists request; split; [exact E|].
  rewrite Hapi; unfold createApiClient; simpl.
  rewrite getApiKey_credentialKey; split.
  - intros k -> ->; reflexivity.
  - intros ->; reflexivity.
Qed.

End Requests.

(** ** Message identifiers *)

Section Identifiers.

Import AdvancedChatbot.

Lemma decode_utf8_ascii (bs : list N) :
  Forall (fun b => b < 128) bs -> decode_utf8 bs = bs.
Proof.
  induction 1 as [|b bs Hb _ IH]; simpl; [reflexivity|].
  apply N.ltb_lt in Hb; change 0x80 with 128; now rewrite Hb, IH.
Qed.

Lemma string_of_uint_chars (d : Decimal.uint) :
  Forall numeral_char
    (map N_of_ascii (list_ascii_of_string (DecimalString.NilEmpty.string_of_uint d))).
Proof.
  induction d; simpl; constructor; auto; split; (reflexivity || discriminate).
Qed.

Lemma string_of_int_chars (d : Decimal.int) :
  Forall numeral_char
    (map N_of_ascii (list_ascii_of_string (DecimalString.NilZero.string_of_int d))).
Proof.
  assert (H : forall u, Forall numeral_char
            (map N_of_ascii (list_ascii_of_string (DecimalString.NilZero.string_of_uint u)))).
  { intros [| | | | | | | | | |]; try apply string_of_uint_chars.
    simpl; constructor; [split; [reflexivity | discriminate] | constructor]. }
  destruct d; simpl; [apply H|].
  constructor; [split; [reflexivity | discriminate] | apply H].
Qed.

Lemma of_Z_bytes (z : Z) :
  of_Z z = map N_of_ascii
             (list_ascii_of_string (DecimalString.NilZero.string_of_int (Z.to_int z))).
Proof.
  unfold of_Z, js; apply decode_utf8_ascii.
  eapply Forall_impl; [|apply string_of_int_chars].
  intros b [Hb _]; exact Hb.
Qed.

Lemma of_Z_no_underscore (z : Z) : ~ In 95 (of_Z z).
Proof.
  rewrite of_Z_bytes; intros Hin.
  pose proof (string_of_int_chars (Z.to_int z)) as H.
  rewrite Forall_forall in H; destruct (H 95 Hin) as [_ Hne]; now apply Hne.
Qed.

Lemma map_N_of_ascii_inj (a b : list ascii) :
  map N_of_ascii a = map N_of_ascii b -> a = b.
Proof.
  revert b; induction a as [|x a IH]; intros [|y b]; simpl; try discriminate; auto.
  intros H; injection H as Hxy Hab.
  rewrite <- (ascii_N_embedding x), <- (ascii_N_embedding y), Hxy.
  f_equal; now apply IH.
Qed.

Lemma to_int_proper (z : Z) :
  Z.to_int z <> Decimal.Pos Decimal.Nil /\ Z.to_int z <> Decimal.Neg Decimal.Nil.
Proof.
  destruct z; simpl; split; try discriminate;
    intros H; injection H as H; exact (DecimalPos.Unsigned.to_uint_nonnil _ H).
Qed.

Lemma of_Z_inj (z z' : Z) : of_Z z = of_Z z' -> z = z'.
Proof.
  rewrite !of_Z_bytes; intros H.
  apply map_N_of_ascii_inj in H.
  apply (f_equal string_of_list_ascii) in H.
  rewrite !string_of_list_ascii_of_string in H.
  apply (f_equal DecimalString.NilZero.int_of_string) in H.
  destruct (to_int_proper z) as [Hp Hn], (to_int_proper z') as [Hp' Hn'].
  rewrite !DecimalString.NilZero.isi in H by assumption.
  injection H as H; now apply DecimalZ.to_int_inj.
Qed.

Lemma app_cut {A} (c : A) (a1 a2 b1 b2 : list A) :
  ~ In c a1 -> ~ In c a2 ->
  a1 ++ c :: b1 = a2 ++ c :: b2 -> a1 = a2 /\ b1 = b2.
Proof.
  revert a2; induction a1 as [|x a1 IH]; intros [|y a2] H1 H2 E; simpl in *.
  - injection E as ->; now split.
  - injection E as <- _; destruct H2; now left.
  - injection E as -> _; destruct H1; now left.
  - injection E as -> E.
    destruct (IH a2) as [-> ->]; auto.
Qed.

(** X16.  An identifier determines the clock reading and the random
    characters it was built from: two messages get the same [id] only
    when they were built in the same millisecond with the same random
    characters, and then they do. *)
Theorem generateId_injective :
  forall r r' : Readings,
    generateId r = generateId r'
    <-> id_now r = id_now r' /\ id_random r = id_random r'.
Proof.
  intros r r'; unfold generateId; split.
  - intros H; apply app_inv_head in H.
    change (js "_" ++ id_random r) with (95 :: id_random r) in H.
    change (js "_" ++ id_random r') with (95 :: id_random r') in H.
    apply app_cut in H as [Hn Hr]; try apply of_Z_no_underscore.
    split; [now apply of_Z_inj | exact Hr].
  - intros [-> ->]; reflexivity.
Qed.

End Identifiers.

(** ** Reactions *)

Section Reactions.

Import AdvancedChatbot.

Lemma handleReaction_map (messageId emoji : jsstring) (s : State) :
  handleReaction messageId emoji s
  = setMessages (fun _ => map (react messageId emoji) (messages s)) s.
Proof. reflexivity. Qed.

Lemma setMessages_same (s : State) (l : list Message) :
  l = messages s -> setMessages (fun _ => l) s = s.
Proof. intros ->; destruct s; reflexivity. Qed.

(** X17.  A reaction to an identifier that no message has changes
    nothing. *)
Theorem handleReaction_unknown_id :
  forall (messageId emoji : jsstring) (s : State),
    (forall msg, In msg (messages s) -> id msg <> messageId) ->
    handleReaction messageId emoji s = s.
Proof.
  intros messageId emoji s H; rewrite handleReaction_map.
  apply setMessages_same.
  rewrite <- (map_id (messages s)) at 2.
  apply map_ext_in; intros msg Hin; unfold react.
  now rewrite (proj2 (eqb_neq _ _) (H msg Hin)).
Qed.

(** X18.  A reaction changes reactions only: the messages keep their
    number, their order and all their other fields; each message with
    the identifier gets the emoji at the end of its reactions, also when
    it is there already; every other message and the rest of the state
    are as before. *)
Theorem handleReaction_adds_reaction_only :
  forall (messageId emoji : jsstring) (s : State),
    let s' := handleReaction messageId emoji s in
    map (fun msg => with_reactions msg None) (messages s')
    = map (fun msg => with_reactions msg None) (messages s)
    /\ (forall i msg, nth_error (messages s) i = Some msg ->
          exists msg',
            nth_error (messages s') i = Some msg'
            /\ reactions_or_none msg'
               = if JsString.eqb (id msg) messageId
                 then reactions_or_none msg ++ [emoji]
                 else reactions_or_none msg)
    /\ input s' = input s /\ isLoading s' = isLoading s /\ config s' = config s.
Proof.
  intros messageId emoji s; cbv zeta; rewrite handleReaction_map; simpl.
  split; [|split; [|repeat split]].
  - rewrite map_map; apply map_ext; intros msg; unfold react.
    destruct (JsString.eqb (id msg) messageId); reflexivity.
  - intros i msg Hn; exists (react messageId emoji msg); split.
    + now apply map_nth_error.
    + unfold react; destruct (JsString.eqb (id msg) messageId); reflexivity.
Qed.

(** X19.  Reactions to two different identifiers can be given in either
    order. *)
Theorem handleReaction_commutes :
  forall (id1 id2 emoji1 emoji2 : jsstring) (s : State),
    id1 <> id2 ->
    handleReaction id1 emoji1 (handleReaction id2 emoji2 s)
    = handleReaction id2 emoji2 (handleReaction id1 emoji1 s).
Proof.
  intros id1 id2 e1 e2 s Hne; rewrite !handleReaction_map; simpl.
  unfold setMessages; simpl; f_equal.
  rewrite !map_map; apply map_ext; intros msg; unfold react.
  destruct (JsString.eqb (id msg) id1) eqn:E1, (JsString.eqb (id msg) id2) eqn:E2;
    simpl; rewrite ?E1, ?E2; try reflexivity.
  apply eqb_eq in E1, E2; congruence.
Qed.

End Reactions.

(** ** Chatbot and the earlier revision *)

Section Siblings.

(** X20.  In [Chatbot] every exchange, however the request settles,
    appends exactly two messages: the user's, whose text is the input as
    it was typed, white space around it included, and which is what the
    request carries; then one message of the bot.  Afterwards the input
    is empty and [isLoading] is false. *)
Theorem chatbot_exchange_appends_two :
  forall (env : ImportMetaEnv) (o : Outcome) (s : Chatbot.State),
    nonEmpty (trim (Chatbot.input s)) = true ->
    exists s1 request s2 b,
      Chatbot.sendMessage env s = (s1, Chatbot.Awaiting request)
      /\ Chatbot.body_content request = Chatbot.input s
      /\ Chatbot.sendMessage_resume o s1 = (Normal tt, s2)
      /\ Chatbot.messages s2
         = Chatbot.messages s
           ++ [{| Chatbot.user := Chatbot.YOU;
                  Chatbot.text := JSString (Chatbot.input s) |}; b]
      /\ Chatbot.user b = Chatbot.BOT
      /\ Chatbot.input s2 = []
      /\ Chatbot.isLoading s2 = false.
Proof.
  intros env o s Hin; unfold Chatbot.sendMessage; rewrite Hin; simpl.
  eexists; eexists.
  unfold Chatbot.sendMessage_resume, try_catch_finally, Chatbot.try_block.
  destruct o as [response|e].
  - destruct (Chatbot.botReply response) as [v|t]; simpl;
      eexists; eexists; (split; [reflexivity|]); (split; [reflexivity|]);
      (split; [reflexivity|]); simpl; rewrite <- app_assoc; repeat split.
  - simpl; eexists; eexists; (split; [reflexivity|]); (split; [reflexivity|]);
      (split; [reflexivity|]); simpl; rewrite <- app_assoc; repeat split.
Qed.

Lemma chatbot_exchange_appends_two_witness :
  let s := Chatbot.setInput (js " hi ") Chatbot.initial in
  nonEmpty (trim (Chatbot.input s)) = true
  /\ exists s1 request s2 b,
      Chatbot.sendMessage no_env s = (s1, Chatbot.Awaiting request)
      /\ Chatbot.body_content request = Chatbot.input s
      /\ Chatbot.sendMessage_resume (settle TimedOut) s1 = (Normal tt, s2)
      /\ Chatbot.messages s2
         = Chatbot.messages s
           ++ [{| Chatbot.user := Chatbot.YOU;
                  Chatbot.text := JSString (Chatbot.input s) |}; b]
      /\ Chatbot.user b = Chatbot.BOT
      /\ Chatbot.input s2 = []
      /\ Chatbot.isLoading s2 = false.
Proof.
  cbv zeta.
  assert (H : nonEmpty (trim (Chatbot.input
                (Chatbot.setInput (js " hi ") Chatbot.initial))) = true)
    by reflexivity.
  split; [exact H|].
  exact (chatbot_exchange_appends_two no_env (settle TimedOut) _ H).
Defined.

(** X21.  In [Chatbot] a response with no body at all gets the fixed
    reply, and a response whose body is an object without [choices] gets
    the error message: reading [choices[0]] of it throws. *)
Theorem chatbot_missing_body_and_missing_choices :
  forall (status : Z) (props : list (jsstring * JSValue)) (s : Chatbot.State),
    own_property props (js "choices") = JSUndefined ->
    let reply (d : JSValue) :=
      Chatbot.sendMessage_resume (Fulfilled {| status := status; data := d |}) s in
    let appended (t : jsstring) :=
      (Normal tt,
       Chatbot.setIsLoading false
         (Chatbot.setMessages (fun prev => prev ++
            [{| Chatbot.user := Chatbot.BOT; Chatbot.text := JSString t |}]) s)) in
    reply JSUndefined = appended Chatbot.NO_REPLY
    /\ reply JSNull = appended Chatbot.NO_REPLY
    /\ reply (JSObject props) = appended Chatbot.ERROR_REPLY.
Proof.
  intros status props s H; cbv zeta.
  split; [reflexivity|]; split; [reflexivity|].
  exact (proj2 (chatbot_no_choices_takes_error_path status props s H)).
Qed.

Lemma chatbot_missing_body_and_missing_choices_witness :
  let props := [(js "error", JSString (js "quota"))] in
  let s := Chatbot.initial in
  let reply (d : JSValue) :=
    Chatbot.sendMessage_resume (Fulfilled {| status := 200; data := d |}) s in
  let appended (t : jsstring) :=
    (Normal tt,
     Chatbot.setIsLoading false
       (Chatbot.setMessages (fun prev => prev ++
          [{| Chatbot.user := Chatbot.BOT; Chatbot.text := JSString t |}]) s)) in
  own_property props (js "choices") = JSUndefined
  /\ reply JSUndefined = appended Chatbot.NO_REPLY
  /\ reply JSNull = appended Chatbot.NO_REPLY
  /\ reply (JSObject props) = appended Chatbot.ERROR_REPLY.
Proof.
  cbv zeta.
  assert (H : own_property [(js "error", JSString (js "quota"))] (js "choices")
              = JSUndefined) by reflexivity.
  split; [exact H|].
  exact (chatbot_missing_body_and_missing_choices 200 _ Chatbot.initial H).
Defined.

(** X22.  In the earlier revision the case [ModelProvider.Google] of
    [getApiKey] selects nothing: whatever the model, the credential does
    not depend on [VITE_GOOGLE_API_KEY], and a model that is neither of
    the two listed ones gets the empty credential. *)
Theorem earlier_google_key_never_read :
  forall (env env' : ImportMetaEnv) (model : jsstring),
    (forall k, k <> js "VITE_GOOGLE_API_KEY" -> env k = env' k) ->
    EarlierChatbot.getApiKey env model = EarlierChatbot.getApiKey env' model
    /\ ((forall m, model <> EarlierChatbot.value m) ->
        EarlierChatbot.getApiKey env model = Some []).
Proof.
  intros env env' model H.
  unfold EarlierChatbot.getApiKey, EarlierChatbot.ModelProvider_Google, is_string.
  destruct (JsString.eqb (EarlierChatbot.value EarlierChatbot.OpenAI) model) eqn:E1.
  - split; [apply H; discriminate|].
    intros Hm; apply eqb_eq in E1; now destruct (Hm EarlierChatbot.OpenAI).
  - destruct (JsString.eqb (EarlierChatbot.value EarlierChatbot.Anthropic) model) eqn:E2.
    + split; [apply H; discriminate|].
      intros Hm; apply eqb_eq in E2; now destruct (Hm EarlierChatbot.Anthropic).
    + split; reflexivity.
Qed.

Lemma earlier_google_key_never_read_witness :
  let env : ImportMetaEnv := fun _ => Some (js "secret") in
  let env' : ImportMetaEnv :=
    fun k => if JsString.eqb k (js "VITE_GOOGLE_API_KEY") then None
             else Some (js "secret") in
  (forall k, k <> js "VITE_GOOGLE_API_KEY" -> env k = env' k)
  /\ EarlierChatbot.getApiKey env (js "google/gemini-pro")
     = EarlierChatbot.getApiKey env' (js "google/gemini-pro")
  /\ ((forall m, js "google/gemini-pro" <> EarlierChatbot.value m) ->
      EarlierChatbot.getApiKey env (js "google/gemini-pro") = Some []).
Proof.
  cbv zeta.
  assert (H : forall k, k <> js "VITE_GOOGLE_API_KEY" ->
              (fun _ : jsstring => Some (js "secret")) k
              = (fun k => if JsString.eqb k (js "VITE_GOOGLE_API_KEY") then None
                          else Some (js "secret")) k).
  { intros k Hk; cbv beta; now rewrite (proj2 (eqb_neq _ _) Hk). }
  split; [exact H|].
  exact (earlier_google_key_never_read _ _ (js "google/gemini-pro") H).
Defined.

Lemma earlier_sendMessage_cases (env : ImportMetaEnv) (r : Readings)
  (s : AdvancedChatbot.State) :
  EarlierChatbot.sendMessage env r s = (s, AdvancedChatbot.Returned)
  \/ exists s' request,
       EarlierChatbot.sendMessage env r s = (s', AdvancedChatbot.Awaiting request)
       /\ AdvancedChatbot.isLoading s' = true
       /\ AdvancedChatbot.config s' = AdvancedChatbot.config s.
Proof.
  unfold EarlierChatbot.sendMessage.
  destruct (nonEmpty (trim (AdvancedChatbot.input s))); simpl.
  - right; eexists; eexists; repeat split.
  - now left.
Qed.

(** At most one request in flight, and a model of the earlier selector. *)
Lemma earlier_launch (w : AdvancedChatbot.World)
  (res : AdvancedChatbot.State * AdvancedChatbot.Suspended) :
  one_in_flight w -> AdvancedChatbot.isLoading (AdvancedChatbot.ui w) = false ->
  (res = (AdvancedChatbot.ui w, AdvancedChatbot.Returned)
   \/ exists s' request,
        res = (s', AdvancedChatbot.Awaiting request)
        /\ AdvancedChatbot.isLoading s' = true
        /\ AdvancedChatbot.config s' = AdvancedChatbot.config (AdvancedChatbot.ui w)) ->
  one_in_flight (AdvancedChatbot.launch w res)
  /\ AdvancedChatbot.config (AdvancedChatbot.ui (AdvancedChatbot.launch w res))
     = AdvancedChatbot.config (AdvancedChatbot.ui w).
Proof.
  intros [Hlen Hidle] Hl [-> | [s' [request [-> [Hs' Hc]]]]];
    unfold one_in_flight; simpl.
  - split; [split; [exact Hlen | intros _; now apply Hidle] | reflexivity].
  - rewrite (Hidle Hl); simpl; split; [split; [lia | congruence] | exact Hc].
Qed.

Lemma earlier_step_invariant (env : ImportMetaEnv) (w : AdvancedChatbot.World)
  (e : EarlierChatbot.Event) :
  one_in_flight w
  /\ (exists m, AdvancedChatbot.model (AdvancedChatbot.config (AdvancedChatbot.ui w))
                = EarlierChatbot.value m) ->
  one_in_flight (EarlierChatbot.step env w e)
  /\ (exists m, AdvancedChatbot.model
                  (AdvancedChatbot.config (AdvancedChatbot.ui (EarlierChatbot.step env w e)))
                = EarlierChatbot.value m).
Proof.
  intros [Inv Hm]; destruct e; simpl; try (split; [exact Inv | exact Hm]).
  - destruct (AdvancedChatbot.isLoading (AdvancedChatbot.ui w));
      split; (exact Inv || exact Hm).
  - destruct (AdvancedChatbot.isLoading (AdvancedChatbot.ui w)) eqn:Hl;
      [split; [exact Inv | exact Hm]|].
    destruct (earlier_launch w
                (EarlierChatbot.handleKeyPress env key shiftKey r (AdvancedChatbot.ui w))
                Inv Hl) as [H1 H2].
    + unfold EarlierChatbot.handleKeyPress.
      destruct (JsString.eqb key (js "Enter") && negb shiftKey);
        [apply earlier_sendMessage_cases | now left].
    + split; [exact H1 | now rewrite H2].
  - destruct (AdvancedChatbot.isLoading (AdvancedChatbot.ui w)) eqn:Hl; simpl;
      [split; [exact Inv | exact Hm]|].
    destruct (negb (nonEmpty (trim (AdvancedChatbot.input (AdvancedChatbot.ui w)))));
      [split; [exact Inv | exact Hm]|].
    destruct (earlier_launch w (EarlierChatbot.sendMessage env r (AdvancedChatbot.ui w))
                Inv Hl (earlier_sendMessage_cases env r _)) as [H1 H2].
    split; [exact H1 | now rewrite H2].
  - split; [exact Inv | now exists m].
  - destruct (AdvancedChatbot.showEmojiPicker (AdvancedChatbot.ui w));
      split; (exact Inv || exact Hm).
  - destruct (nth_error (AdvancedChatbot.pending w) i) as [request|] eqn:Hn;
      [|split; [exact Inv | exact Hm]].
    destruct (resume_effect r r' (settle wire) (AdvancedChatbot.ui w)) as [b [E _]].
    destruct Inv as [Hlen _]; unfold one_in_flight; simpl; rewrite E.
    rewrite (remove_nth_single _ _ _ Hlen Hn).
    split; [split; [simpl; lia | reflexivity] | exact Hm].
Qed.

(** X23.  In the earlier revision, started in its own initial state
    (model [openai/gpt-3.5-turbo]) and run by its own page, whose input
    and send button are both disabled while a reply is awaited, every
    reachable state has at most one request in flight, none while
    [isLoading] is false, and a model of its selector. *)
Theorem earlier_revision_one_in_flight :
  forall (env : ImportMetaEnv) (w : AdvancedChatbot.World),
    EarlierChatbot.reachable env w ->
    one_in_flight w
    /\ exists m, AdvancedChatbot.model (AdvancedChatbot.config (AdvancedChatbot.ui w))
                 = EarlierChatbot.value m.
Proof.
  intros env w [es <-]; unfold EarlierChatbot.run.
  assert (H : forall w0,
            one_in_flight w0
            /\ (exists m, AdvancedChatbot.model
                            (AdvancedChatbot.config (AdvancedChatbot.ui w0))
                          = EarlierChatbot.value m) ->
            one_in_flight (fold_left (EarlierChatbot.step env) es w0)
            /\ (exists m, AdvancedChatbot.model
                            (AdvancedChatbot.config
                               (AdvancedChatbot.ui (fold_left (EarlierChatbot.step env) es w0)))
                          = EarlierChatbot.value m)).
  { induction es as [|e es IH]; intros w0 Inv; simpl; [exact Inv|].
    apply IH, earlier_step_invariant, Inv. }
  apply H; split.
  - split; simpl; [lia | reflexivity].
  - now exists EarlierChatbot.OpenAI.
Qed.

Lemma earlier_revision_one_in_flight_witness :
  let w := EarlierChatbot.run no_env EarlierChatbot.start
             [EarlierChatbot.Change (js "hi");
              EarlierChatbot.ClickSend (at_ 1000);
              EarlierChatbot.Change (js "yo");
              EarlierChatbot.KeyPress (js "Enter") false (at_ 1200);
              EarlierChatbot.SelectModel EarlierChatbot.Anthropic] in
  EarlierChatbot.reachable no_env w
  /\ one_in_flight w
  /\ exists m, AdvancedChatbot.model (AdvancedChatbot.config (AdvancedChatbot.ui w))
               = EarlierChatbot.value m.
Proof.
  cbv zeta.
  assert (H : EarlierChatbot.reachable no_env
                (EarlierChatbot.run no_env EarlierChatbot.start
                   [EarlierChatbot.Change (js "hi");
                    EarlierChatbot.ClickSend (at_ 1000);
                    EarlierChatbot.Change (js "yo");
                    EarlierChatbot.KeyPress (js "Enter") false (at_ 1200);
                    EarlierChatbot.SelectModel EarlierChatbot.Anthropic]))
    by (eexists; reflexivity).
  split; [exact H|].
  exact (earlier_revision_one_in_flight no_env _ H).
Defined.

(** The first request of the earlier revision asks for its own initial
    model with its own credential. *)
Example earlier_first_request :
  exists s request,
    EarlierChatbot.sendMessage
      (fun k => if JsString.eqb k (js "VITE_OPENAI_API_KEY") then Some (js "o-secret")
                else None)
      (at_ 1000) (AdvancedChatbot.setInput (fun _ => js "hi") EarlierChatbot.initial)
    = (s, AdvancedChatbot.Awaiting request)
    /\ AdvancedChatbot.Authorization (AdvancedChatbot.api request) = js "Bearer o-secret"
    /\ AdvancedChatbot.body_model (AdvancedChatbot.body request)
       = js "openai/gpt-3.5-turbo".
Proof. repeat eexists. Qed.

End Siblings.

(** ** Instances *)

Section Instances.

Import AdvancedChatbot.

Lemma a_conversation_reachable :
  reachable render no_env (run render no_env start a_conversation).
Proof. now exists a_conversation. Qed.

Lemma reachable_messages_stored_witness :
  let w := run render no_env start a_conversation in
  reachable render no_env w /\ Forall stored (messages (ui w)).
Proof.
  cbv zeta; split; [exact a_conversation_reachable|].
  exact (reachable_messages_stored render no_env _ a_conversation_reachable).
Defined.

Lemma reachable_isTyping_isLoading_witness :
  let w := run render no_env start a_conversation in
  reachable render no_env w /\ isTyping (ui w) = isLoading (ui w).
Proof.
  cbv zeta; split; [exact a_conversation_reachable|].
  exact (reachable_isTyping_isLoading render no_env _ a_conversation_reachable).
Defined.

Lemma messages_append_only_witness :
  let e := Settles 0 TimedOut (at_ 16000) (at_ 16001) in
  e <> ClickClear
  /\ exists added,
      messages (ui (step render no_env waiting e)) = messages (ui waiting) ++ added
      /\ (List.length added <= 1)%nat.
Proof.
  cbv zeta.
  assert (H : Settles 0 TimedOut (at_ 16000) (at_ 16001) <> ClickClear) by discriminate.
  split; [exact H|].
  exact (messages_append_only render no_env waiting _ H).
Defined.

Lemma conversation_balanced_witness :
  ~ In ClickClear a_conversation
  /\ balanced (run render no_env start a_conversation).
Proof.
  assert (H : ~ In ClickClear a_conversation).
  { simpl; intuition discriminate. }
  split; [exact H|].
  exact (conversation_balanced render no_env a_conversation H).
Defined.

Lemma clear_does_not_cancel_witness :
  nth_error (pending waiting) 0 = Some a_request
  /\ exists m,
      messages (ui (step render no_env (step render no_env waiting ClickClear)
                      (Settles 0 (ok (JSString (js "Hello"))) (at_ 2000) (at_ 2001))))
      = [m]
      /\ user m = Bot
      /\ isLoading (ui (step render no_env (step render no_env waiting ClickClear)
                          (Settles 0 (ok (JSString (js "Hello"))) (at_ 2000) (at_ 2001))))
         = false
      /\ pending (step render no_env (step render no_env waiting ClickClear)
                    (Settles 0 (ok (JSString (js "Hello"))) (at_ 2000) (at_ 2001)))
         = remove_nth 0 (pending waiting).
Proof.
  assert (H : nth_error (pending waiting) 0 = Some a_request) by reflexivity.
  split; [exact H|].
  exact (clear_does_not_cancel render no_env waiting 0 a_request
           (ok (JSString (js "Hello"))) (at_ 2000) (at_ 2001) H).
Defined.

Lemma settle_releases_flag_for_all_witness :
  let w := {| ui := busy; pending := [a_request; a_request] |} in
  nth_error (pending w) 1 = Some a_request
  /\ isLoading (ui (step render no_env w (Settles 1 NoResponse (at_ 2000) (at_ 2001))))
     = false
  /\ S (List.length
          (pending (step render no_env w (Settles 1 NoResponse (at_ 2000) (at_ 2001)))))
     = List.length (pending w)
  /\ exists m,
      messages (ui (step render no_env w (Settles 1 NoResponse (at_ 2000) (at_ 2001))))
      = messages (ui w) ++ [m]
      /\ user m = Bot.
Proof.
  cbv zeta.
  assert (H : nth_error (pending {| ui := busy; pending := [a_request; a_request] |}) 1
              = Some a_request) by reflexivity.
  split; [exact H|].
  exact (settle_releases_flag_for_all render no_env _ 1 a_request
           NoResponse (at_ 2000) (at_ 2001) H).
Defined.

Lemma reachable_messages_render_witness :
  let w := run render no_env start an_array_reply in
  let m := botMessage (at_ 1500) fenced_parts true in
  (reachable render no_env w /\ In m (messages (ui w)))
  /\ formatMessage (text m) = Throw TypeError
  /\ ~ exists f, formatMessage (text m) = Normal f.
Proof.
  cbv zeta.
  assert (Hw : reachable render no_env (run render no_env start an_array_reply))
    by now exists an_array_reply.
  assert (Hin : In (botMessage (at_ 1500) fenced_parts true)
                   (messages (ui (run render no_env start an_array_reply)))).
  { right; left; reflexivity. }
  split; [split; [exact Hw | exact Hin]|].
  destruct (reachable_messages_render render no_env _ _ Hw Hin) as [Hthrow Hret].
  assert (Harr : exists elems,
            text (botMessage (at_ 1500) fenced_parts true) = JSArray elems
            /\ In (JSString FENCE) elems).
  { eexists; split; [reflexivity | right; left; reflexivity]. }
  split; [exact (proj2 Hthrow Harr)|].
  intros Hf; exact (proj1 Hret Hf Harr).
Defined.

Lemma sent_text_is_trimmed_input_witness :
  let s := typed (js "  hi there ") initial in
  nonEmpty (trim (input s)) = true
  /\ exists s' request pre suf,
      sendMessage secrets (at_ 1000) s = (s', Awaiting request)
      /\ messages s' = messages s ++ [userMessage (at_ 1000) (trim (input s))]
      /\ body_messages (body request)
         = [{| role := js "user"; content := trim (input s) |}]
      /\ input s = pre ++ trim (input s) ++ suf
      /\ blank pre /\ blank suf /\ trimmed (trim (input s))
      /\ input s' = [].
Proof.
  cbv zeta.
  assert (H : nonEmpty (trim (input (typed (js "  hi there ") initial))) = true)
    by reflexivity.
  split; [exact H|].
  exact (sent_text_is_trimmed_input secrets (at_ 1000) _ H).
Defined.

Lemma request_ignores_history_witness :
  let s2 := typed (js "draft") initial in
  (input busy = input s2 /\ config busy = config s2)
  /\ snd (sendMessage secrets (at_ 1000) busy)
     = snd (sendMessage secrets (at_ 2000) s2).
Proof.
  cbv zeta.
  assert (Hi : input busy = input (typed (js "draft") initial)) by reflexivity.
  assert (Hc : config busy = config (typed (js "draft") initial)) by reflexivity.
  split; [split; assumption|].
  exact (request_ignores_history secrets (at_ 1000) (at_ 2000) busy _ Hi Hc).
Defined.

Lemma missing_credential_still_sends_witness :
  let s := typed (js "hi") initial in
  nonEmpty (trim (input s)) = true
  /\ exists s' request,
      sendMessage no_env (at_ 1000) s = (s', Awaiting request)
      /\ (forall k, credentialKey (model (config s)) = Some k -> no_env k = None ->
            Authorization (api request) = js "Bearer undefined")
      /\ (credentialKey (model (config s)) = None ->
            Authorization (api request) = js "Bearer ").
Proof.
  cbv zeta.
  assert (H : nonEmpty (trim (input (typed (js "hi") initial))) = true) by reflexivity.
  split; [exact H|].
  exact (missing_credential_still_sends no_env (at_ 1000) _ H).
Defined.

Lemma handleReaction_unknown_id_witness :
  (forall msg, In msg (messages busy) -> id msg <> js "msg_0_none")
  /\ handleReaction (js "msg_0_none") (js "+1") busy = busy.
Proof.
  assert (H : forall msg, In msg (messages busy) -> id msg <> js "msg_0_none").
  { intros msg [<- | [<- | []]]; discriminate. }
  split; [exact H|].
  exact (handleReaction_unknown_id (js "msg_0_none") (js "+1") busy H).
Defined.

Lemma handleReaction_commutes_witness :
  let id1 := generateId (at_ 1000) in
  let id2 := generateId (at_ 1500) in
  id1 <> id2
  /\ handleReaction id1 (js "+1") (handleReaction id2 (js "ok") busy)
     = handleReaction id2 (js "ok") (handleReaction id1 (js "+1") busy).
Proof.
  cbv zeta.
  assert (H : generateId (at_ 1000) <> generateId (at_ 1500)) by discriminate.
  split; [exact H|].
  exact (handleReaction_commutes _ _ (js "+1") (js "ok") busy H).
Defined.


End Instances.
